(** * schedule-mcp: interval logic, overdue reconciliation and the tool boundary

    A shallow embedding of the parts of [schedule_mcp] that decide the
    behaviour of the free-slot finder ([clients/gcal.py]), the overdue
    reconciler ([clients/notion.py]) and the tools built on them
    ([tools/calendar.py], [tools/schedule.py]).

    Conventions.
    - A [datetime] is the wall-clock reading, in microseconds, of an aware
      Python datetime in the configured zone.  Every datetime the two
      interval algorithms handle carries the same [tzinfo] object, and
      Python compares, subtracts and shifts such values on their wall-clock
      fields alone, so integer arithmetic on the reading is what the code
      computes.  A [timedelta] is a number of microseconds.
      Leaving the range of years 1..9999 ([OverflowError]) is not modelled.
    - Exceptions are values of [Py.exn]; code that can raise returns a
      [Py.result].
    - The two providers are a [world] that every provider call reads,
      updates and journals; a provider call fails when the world schedules
      a failure for it.  How date strings read and what the providers
      answer are the fields of the class [Externals]; [Iso.externals] is a
      concrete reading used by the worked examples.
    - Tool inputs are taken after type coercion: an argument is absent or a
      value of the declared type. *)

From Stdlib Require Import ZArith List String Ascii Bool Lia.
From Stdlib Require Import Sorting.Sorted Sorting.Permutation Sorting.Mergesort Orders.
From Stdlib Require Import Floats.SpecFloat DecimalString.
From Stdlib Require OrderedTypeEx.
From stdpp Require gmap strings.
Import ListNotations.
Open Scope string_scope.
Open Scope list_scope.
Open Scope Z_scope.

(* ====================================================================== *)
(** * Python runtime pieces the code relies on *)
(* ====================================================================== *)

Module Py.

(** The exception classes that reach the modelled code. An [http_error] is
    a googleapiclient [HttpError] with [e.resp.status] and the text of
    [str(e)]; an [api_response_error] is a notion_client
    [APIResponseError]. *)
Record http_error : Type := {
  resp_status : Z;
  http_str : string
}.

Record api_response_error : Type := {
  code : string;
  message : string
}.

Inductive exn : Type :=
| ValueError (msg : string)
| TypeError (msg : string)
| HttpError (e : http_error)
| APIResponseError (e : api_response_error).

(** [str(e)], as spliced into an f-string by [{e}]. *)
Definition str (e : exn) : string :=
  match e with
  | ValueError msg => msg
  | TypeError msg => msg
  | HttpError e => http_str e
  | APIResponseError e => message e
  end.

Inductive result (A : Type) : Type :=
| Ok (a : A)
| Raise (e : exn).
Arguments Ok {A} a.
Arguments Raise {A} e.

Definition bind {A B : Type} (r : result A) (k : A -> result B) : result B :=
  match r with
  | Ok a => k a
  | Raise e => Raise e
  end.

(** [a or b] on optional strings: [None] and the empty string are falsy. *)
Definition truthy (s : option string) : bool :=
  match s with
  | Some s => negb (s =? "")%string
  | None => false
  end.

Definition or_ (a b : option string) : option string :=
  if truthy a then a else b.

(** ** datetime and timedelta *)

Abbreviation datetime := Z (only parsing).
Abbreviation timedelta := Z (only parsing).

Definition us_per_second : Z := 1000000.
Definition us_per_minute : Z := 60 * us_per_second.
Definition us_per_hour : Z := 3600 * us_per_second.
Definition us_per_day : Z := 86400 * us_per_second.

(** [timedelta(minutes=m)], [timedelta(days=d)]. *)
Definition minutes (m : Z) : timedelta := m * us_per_minute.
Definition days (d : Z) : timedelta := d * us_per_day.

(** [dt.replace(hour=h, minute=0, second=0)]: the date and the microsecond
    field are kept; an hour outside 0..23 raises [ValueError]. *)
Definition replace_hour (dt : datetime) (h : Z) : result datetime :=
  if (0 <=? h) && (h <=? 23)
  then Ok (dt / us_per_day * us_per_day + h * us_per_hour + dt mod us_per_second)
  else Raise (ValueError "hour must be in 0..23").

(** ** Floats

    Python floats are IEEE 754 binary64 values; the Standard Library's
    [SpecFloat] gives their arithmetic as functions on mantissa and
    exponent. *)

Definition float : Type := spec_float.
Definition prec : Z := 53.
Definition emax : Z := 1024.

Definition raw_int (z : Z) : float :=
  match z with
  | Z0 => S754_zero false
  | Zpos p => S754_finite false p 0
  | Zneg p => S754_finite true p 0
  end.

(** [float(z)]. *)
Definition float_of_int (z : Z) : float := binary_normalize prec emax z 0 false.

(** [a / b] on two ints: the correctly rounded quotient. *)
Definition int_truediv (a b : Z) : float := SFdiv prec emax (raw_int a) (raw_int b).

(** [x / k] for a float [x] and an int [k]. *)
Definition float_div_int (x : float) (k : Z) : float :=
  SFdiv prec emax x (float_of_int k).

(** [td.total_seconds()]. *)
Definition total_seconds (td : timedelta) : float := int_truediv td us_per_second.

(** The integer nearest to [num / den] for [den > 0], ties to even. *)
Definition round_half_even (num den : Z) : Z :=
  let q := num / den in
  match 2 * (num mod den) ?= den with
  | Lt => q
  | Gt => q + 1
  | Eq => if Z.even q then q else q + 1
  end.

(** The number of tenths nearest to the magnitude of a finite float. *)
Definition tenths (m : positive) (e : Z) : Z :=
  if 0 <=? e then 10 * Zpos m * 2 ^ e
  else round_half_even (10 * Zpos m) (2 ^ (- e)).

(** [round(x, 1)]: the double nearest to the one-decimal numeral nearest to
    [x]; zeros, infinities and NaN round to themselves. *)
Definition round1 (x : float) : float :=
  match x with
  | S754_finite s m e =>
      match tenths m e with
      | Zpos p => SFdiv prec emax (S754_finite s p 0) (S754_finite false 10 0)
      | _ => S754_zero s
      end
  | _ => x
  end.

(** [str(n)] for an int. *)
Definition str_int (n : Z) : string := NilZero.string_of_int (Z.to_int n).

End Py.


(* ====================================================================== *)
(** * The two providers *)
(* ====================================================================== *)

Module Provider.
Import Py.

(** The [start] / [end] object of a Calendar event resource: an all-day
    event carries [date], a timed one [dateTime]. *)
Record time_field : Type := {
  tf_dateTime : option string;
  tf_date : option string
}.

Record event : Type := {
  ev_id : string;
  ev_summary : option string;
  ev_start : time_field;
  ev_end : time_field;
  ev_description : option string;
  ev_location : option string
}.

(** The body [create_event] sends to [events().insert]. *)
Record event_body : Type := {
  body_summary : string;
  body_start : string;
  body_end : string;
  body_timeZone : string;
  body_description : option string;
  body_location : option string
}.

(** A task as [_simplify_task] returns it. *)
Record task : Type := {
  notion_id : string;
  url : string;
  name : string;
  status : option string;
  due_date : option string
}.

Inductive request : Type :=
| EventsList (calendar_id : string) (time_min time_max : datetime) (max_results : Z)
| EventsInsert (calendar_id : string) (body : event_body)
| TasksQuery (by_status due_before due_after : option string).

(** What the code cannot decide by itself: how date strings read in the
    configured zone, and what the providers answer. *)
Class Externals : Type := {
  (** [datetime.fromisoformat(s).replace(tzinfo=tz)]; [None] when
      [fromisoformat] raises [ValueError]. *)
  parse_wall : string -> option datetime;
  (** [datetime.fromisoformat(s).astimezone(tz)]; [None] when
      [fromisoformat] raises [ValueError]. *)
  parse_zoned : string -> option datetime;
  (** The items of [events().list(...)] over the stored events. *)
  listed : list (string * event) -> string -> datetime -> datetime -> Z -> list event;
  (** The resource [events().insert(...)] stores and returns for a body. *)
  stored : list (string * event) -> string -> event_body -> event;
  (** The simplified results of [data_sources.query] on the Tasks
      collection. *)
  matching : list task -> option string -> option string -> option string -> list task;
  (** the [LOCAL_TIMEZONE] setting *)
  local_timezone : string
}.

Record world : Type := {
  calendar : list (string * event);
  tasks_db : list task;
  (** [datetime.now().date().isoformat()] *)
  today : string;
  (** the failure, if any, that each coming provider call meets *)
  faults : list (option exn);
  (** the provider calls issued so far, oldest first *)
  journal : list request
}.

(** Code that talks to the providers: a result and the world after it. *)
Definition M (A : Type) : Type := world -> result A * world.

Definition ret {A : Type} (a : A) : M A := fun w => (Ok a, w).

Definition bindM {A B : Type} (c : M A) (k : A -> M B) : M B :=
  fun w =>
    match c w with
    | (Ok a, w') => k a w'
    | (Raise e, w') => (Raise e, w')
    end.

Definition lift {A : Type} (r : result A) : M A := fun w => (r, w).

Definition now_today : M string := fun w => (Ok (today w), w).

(** One provider call: it is journalled, meets the next scheduled failure
    if there is one, and otherwise answers from and updates the stores. *)
Definition call {A : Type} (r : request) (answer : world -> A * world) : M A :=
  fun w =>
    let w1 := {| calendar := calendar w; tasks_db := tasks_db w; today := today w;
                 faults := tl (faults w); journal := journal w ++ [r] |} in
    match faults w with
    | Some e :: _ => (Raise e, w1)
    | _ => let (a, w2) := answer w1 in (Ok a, w2)
    end.

(** try: [c] except Exception as e: [handler e] *)
Definition try_except {A : Type} (c : M A) (handler : exn -> A) : world -> A * world :=
  fun w =>
    match c w with
    | (Ok a, w') => (a, w')
    | (Raise e, w') => (handler e, w')
    end.

End Provider.

Notation "x <- c1 ;; c2" := (Provider.bindM c1 (fun x => c2))
  (at level 100, c1 at next level, right associativity).

(* ====================================================================== *)
(** * clients/gcal.py *)
(* ====================================================================== *)

Module GCal.
Import Py Provider.

(** A busy window [(busy_start, busy_end)]. *)
Definition window : Type := (datetime * datetime)%type.

(** Tuple comparison, as [busy.sort()] uses it. *)
Definition window_leb (a b : window) : bool :=
  (fst a <? fst b) || ((fst a =? fst b) && (snd a <=? snd b)).

Lemma window_leb_total : forall a b, window_leb a b = true \/ window_leb b a = true.
Proof.
  intros [s1 e1] [s2 e2]; unfold window_leb; simpl.
  destruct (Z.ltb_spec s1 s2); [now left|].
  destruct (Z.ltb_spec s2 s1); [now right|].
  assert (s1 = s2) by lia; subst.
  rewrite Z.eqb_refl; simpl.
  destruct (Z.leb_spec e1 e2); [now left|right].
  apply Z.leb_le; lia.
Qed.

Module WindowOrder <: TotalLeBool.
Definition t : Type := window.
Definition leb : t -> t -> bool := window_leb.
Definition leb_total : forall a b, leb a b = true \/ leb b a = true := window_leb_total.
End WindowOrder.

Module WindowSort := Sort WindowOrder.

(** A free slot; the source stores the two [isoformat()] renderings. *)
Record slot : Type := {
  slot_start : datetime;
  slot_end : datetime
}.

Definition _handle_http_error (e : http_error) : string :=
  let code := resp_status e in
  if code =? 404 then "Error: Calendar event not found. Check the event ID."
  else if code =? 403 then
    "Error: Permission denied. Ensure the Calendar API is enabled and OAuth scopes include calendar write."
  else if code =? 409 then "Error: Conflict — this event may already exist."
  else if code =? 429 then "Error: Google Calendar API rate limit hit. Wait a moment and retry."
  else ("Error: Google Calendar API error " ++ str_int code ++ ": " ++ http_str e)%string.

(** [datetime.fromisoformat(s)] on a value that may be missing. *)
Definition fromisoformat (parse : string -> option datetime) (s : option string)
  : result datetime :=
  match s with
  | None => Raise (TypeError "fromisoformat: argument must be str")
  | Some s =>
      match parse s with
      | Some t => Ok t
      | None => Raise (ValueError ("Invalid isoformat string: '" ++ s ++ "'")%string)
      end
  end.

(** The loop over the busy windows: a slot before each window the cursor
    clears by [slot_delta], then the cursor moves to the window's end when
    that lies ahead. *)
Fixpoint walk (slot_delta : timedelta) (busy : list window)
         (cursor : datetime) (free_slots : list slot) : datetime * list slot :=
  match busy with
  | [] => (cursor, free_slots)
  | (busy_start, busy_end) :: rest =>
      let free_slots :=
        if cursor + slot_delta <=? busy_start
        then free_slots ++ [{| slot_start := cursor; slot_end := cursor + slot_delta |}]
        else free_slots in
      let cursor := if busy_end >? cursor then busy_end else cursor in
      walk slot_delta rest cursor free_slots
  end.

(** Lines 217-238: sort, walk the day, check the time left after the last
    event. *)
Definition slots_of_busy (day_start day_end : datetime) (duration_minutes : Z)
           (busy : list window) : list slot :=
  let busy := WindowSort.sort busy in
  let slot_delta := minutes duration_minutes in
  let '(cursor, free_slots) := walk slot_delta busy day_start [] in
  if cursor + slot_delta <=? day_end
  then free_slots ++ [{| slot_start := cursor; slot_end := cursor + slot_delta |}]
  else free_slots.

Section WithExternals.
Context `{ext : Externals}.

(** The body of the [try] in the window-building loop. *)
Definition parse_window (ev : event) : result window :=
  let start_str := or_ (tf_dateTime (ev_start ev)) (tf_date (ev_start ev)) in
  let end_str := or_ (tf_dateTime (ev_end ev)) (tf_date (ev_end ev)) in
  bind (fromisoformat parse_zoned start_str) (fun s =>
  bind (fromisoformat parse_zoned end_str) (fun e =>
  Ok (s, e))).

(** Lines 206-215: [ValueError] skips the event, any other exception
    leaves the loop and the function. *)
Fixpoint build_busy (events : list event) (busy : list window) : result (list window) :=
  match events with
  | [] => Ok busy
  | ev :: rest =>
      match parse_window ev with
      | Ok w => build_busy rest (busy ++ [w])
      | Raise (ValueError _) => build_busy rest busy
      | Raise e => Raise e
      end
  end.

Definition get_events (start_date end_date calendar_id : string) (max_results : Z)
  : M (list event) :=
  time_min <- lift (fromisoformat parse_wall (Some start_date)) ;;
  end_day <- lift (fromisoformat parse_wall (Some end_date)) ;;
  let time_max := end_day + days 1 in
  call (EventsList calendar_id time_min time_max max_results)
       (fun w => (listed (calendar w) calendar_id time_min time_max max_results, w)).


Definition find_free_slots (date : string) (duration_minutes earliest_hour latest_hour : Z)
           (calendar_id : string) : M (list slot) :=
  d <- lift (fromisoformat parse_wall (Some date)) ;;
  day_start <- lift (replace_hour d earliest_hour) ;;
  d <- lift (fromisoformat parse_wall (Some date)) ;;
  day_end <- lift (replace_hour d latest_hour) ;;
  events <- get_events date date calendar_id 50 ;;
  busy <- lift (build_busy events []) ;;
  ret (slots_of_busy day_start day_end duration_minutes busy).

End WithExternals.

End GCal.

(* ====================================================================== *)
(** * clients/notion.py *)
(* ====================================================================== *)

Module Notion.
Import Py Provider.
Import stdpp.base stdpp.gmap stdpp.strings.

Definition _handle_notion_error (e : api_response_error) : string :=
  let code := code e in
  if String.eqb code "object_not_found"
  then "Error: Notion page or database not found. Check that the integration has access."
  else if String.eqb code "unauthorized" then "Error: Notion token is invalid or expired."
  else if String.eqb code "validation_error"
  then ("Error: Invalid data sent to Notion — " ++ message e)%string
  else if String.eqb code "rate_limited"
  then "Error: Notion rate limit hit. Wait a moment and retry."
  else ("Error: Notion API error (" ++ code ++ "): " ++ message e)%string.

(** [t["status"] not in ("Done", "Archived", "Overdue")] *)
Definition status_open (t : task) : bool :=
  match status t with
  | Some s => negb (String.eqb s "Done" || String.eqb s "Archived" || String.eqb s "Overdue")
  | None => true
  end.

(** [t["due_date"] and t["due_date"] < today], a comparison of strings. *)
Definition due_before_today (today : string) (t : task) : bool :=
  match due_date t with
  | Some d => negb (String.eqb d "") && String.ltb d today
  | None => false
  end.

(** The condition of the list comprehension on lines 399-402. *)
Definition past_due (today : string) (t : task) : bool :=
  status_open t && due_before_today today t.

(** Lines 405-410: keep the first task of every [notion_id]. *)
Fixpoint dedup (tasks : list task) (seen : gset string) (combined : list task)
  : list task :=
  match tasks with
  | [] => combined
  | task :: rest =>
      if bool_decide (notion_id task ∈ seen)
      then dedup rest seen combined
      else dedup rest (seen ∪ {[notion_id task]}) (combined ++ [task])
  end.

Section WithExternals.
Context `{ext : Externals}.

(** An argument that is [None] or empty adds no filter. *)
Definition filter_arg (a : option string) : option string :=
  if truthy a then a else None.

Definition get_tasks (status due_before due_after : option string) : M (list task) :=
  let status := filter_arg status in
  let due_before := filter_arg due_before in
  let due_after := filter_arg due_after in
  call (TasksQuery status due_before due_after)
       (fun w => (matching (tasks_db w) status due_before due_after, w)).

Definition get_overdue_tasks : M (list task) :=
  today <- now_today ;;
  overdue_by_status <- get_tasks (Some "Overdue") None None ;;
  overdue_by_date <- get_tasks None (Some today) None ;;
  let overdue_by_date := List.filter (past_due today) overdue_by_date in
  ret (dedup (overdue_by_status ++ overdue_by_date) ∅ []).

End WithExternals.

End Notion.

(* ====================================================================== *)
(** * tools/calendar.py *)
(* ====================================================================== *)

Module CalendarTools.
Import Py Provider GCal.

(** What a tool returns: a JSON document or a plain message. *)
Inductive reply (A : Type) : Type :=
| Json (a : A)
| Text (s : string).
Arguments Json {A} a.
Arguments Text {A} s.

(** What a tool invocation comes to: the input model rejects the arguments
    and the tool body never runs, or the tool returns. *)
Inductive outcome (A : Type) : Type :=
| Rejected
| Returned (r : reply A).
Arguments Rejected {A}.
Arguments Returned {A} r.

(** ** FindFreeSlotsInput *)

(** The arguments as the caller supplies them; a field may be missing and
    [args_extra] lists the keys the model does not declare. *)
Record arguments : Type := {
  args_date : option string;
  args_duration_minutes : option Z;
  args_earliest_hour : option Z;
  args_latest_hour : option Z;
  args_calendar_id : option string;
  args_extra : list string
}.

Record FindFreeSlotsInput : Type := {
  date : string;
  duration_minutes : Z;
  earliest_hour : Z;
  latest_hour : Z;
  calendar_id : string
}.

(** A required field ([Field(...)]). *)
Definition required {A : Type} (a : option A) : option A := a.

(** A field with a default. *)
Definition default {A : Type} (d : A) (a : option A) : option A :=
  match a with
  | Some a => Some a
  | None => Some d
  end.

(** The [ge] / [le] constraints of an int field. *)
Definition bounded (ge le : Z) (a : option Z) : option Z :=
  match a with
  | Some n => if (ge <=? n) && (n <=? le) then Some n else None
  | None => None
  end.

Definition validate (a : arguments) : option FindFreeSlotsInput :=
  match args_extra a with
  | _ :: _ => None
  | [] =>
      match required (args_date a),
            bounded 15 480 (required (args_duration_minutes a)),
            bounded 0 23 (default 8 (args_earliest_hour a)),
            bounded 1 24 (default 20 (args_latest_hour a)),
            default "primary" (args_calendar_id a) with
      | Some date, Some duration_minutes, Some earliest_hour, Some latest_hour,
        Some calendar_id =>
          Some {| date := date; duration_minutes := duration_minutes;
                  earliest_hour := earliest_hour; latest_hour := latest_hour;
                  calendar_id := calendar_id |}
      | _, _, _, _, _ => None
      end
  end.

(** The fields of an event that the tools report. *)
Record event_view : Type := {
  view_id : string;
  view_title : string;
  view_start : option string;
  view_end : option string;
  view_description : option string;
  view_location : option string
}.

Definition _simplify_event (ev : event) : event_view :=
  {| view_id := ev_id ev;
     view_title := match ev_summary ev with Some t => t | None => "(no title)" end;
     view_start := or_ (tf_dateTime (ev_start ev)) (tf_date (ev_start ev));
     view_end := or_ (tf_dateTime (ev_end ev)) (tf_date (ev_end ev));
     view_description := ev_description ev;
     view_location := ev_location ev |}.

Record free_slots_payload : Type := {
  fs_message : option string;
  fs_slots : list slot;
  fs_count : option Z
}.

Section WithExternals.
Context `{ext : Externals}.

Definition gcal_get_events (start_date end_date calendar_id : string) (max_results : Z)
  : world -> reply (list event_view) * world :=
  try_except
    (events <- get_events start_date end_date calendar_id max_results ;;
     ret (Json (map _simplify_event events)))
    (fun e => Text ("Error fetching events: " ++ str e)%string).

Definition gcal_find_free_slots (params : FindFreeSlotsInput)
  : world -> reply free_slots_payload * world :=
  try_except
    (slots <- find_free_slots (date params) (duration_minutes params)
                              (earliest_hour params) (latest_hour params)
                              (calendar_id params) ;;
     ret (match slots with
          | [] => Json {| fs_message := Some "No free slots found on this date.";
                          fs_slots := []; fs_count := None |}
          | _ => Json {| fs_message := None; fs_slots := slots;
                         fs_count := Some (Z.of_nat (List.length slots)) |}
          end))
    (fun e => Text ("Error finding free slots: " ++ str e)%string).

(** An invocation of the tool: the arguments are validated against the
    input model before the body runs. *)
Definition invoke_gcal_find_free_slots (a : arguments)
  : world -> outcome free_slots_payload * world :=
  fun w =>
    match validate a with
    | None => (Rejected, w)
    | Some params => let (r, w') := gcal_find_free_slots params w in (Returned r, w')
    end.

End WithExternals.

End CalendarTools.

(* ====================================================================== *)
(** * tools/tasks.py *)
(* ====================================================================== *)

Module TaskTools.
Import Py Provider Notion CalendarTools.

Record overdue_payload : Type := {
  od_message : option string;
  od_count : option Z;
  od_tasks : list task
}.

Section WithExternals.
Context `{ext : Externals}.

Definition notion_get_overdue_tasks : world -> reply overdue_payload * world :=
  try_except
    (tasks <- get_overdue_tasks ;;
     ret (match tasks with
          | [] => Json {| od_message := Some "No overdue tasks found.";
                          od_count := None; od_tasks := [] |}
          | _ => Json {| od_message := None;
                         od_count := Some (Z.of_nat (List.length tasks));
                         od_tasks := tasks |}
          end))
    (fun e => Text ("Error fetching overdue tasks: " ++ str e)%string).

End WithExternals.

End TaskTools.

(* ====================================================================== *)
(** * tools/schedule.py *)
(* ====================================================================== *)

Module ScheduleTools.
Import Py Provider GCal CalendarTools.

(** An entry of [parsed]: [(s, e, summary, id)]. *)
Definition parsed_event : Type := (datetime * datetime * string * string)%type.

(** Tuple comparison, as [parsed.sort()] uses it; strings compare by code
    point. *)
Definition parsed_leb (a b : parsed_event) : bool :=
  let '(s1, e1, title1, id1) := a in
  let '(s2, e2, title2, id2) := b in
  if s1 <? s2 then true
  else if s2 <? s1 then false
  else if e1 <? e2 then true
  else if e2 <? e1 then false
  else match String.compare title1 title2 with
       | Lt => true
       | Gt => false
       | Eq => String.leb id1 id2
       end.

Lemma parsed_leb_total : forall a b, parsed_leb a b = true \/ parsed_leb b a = true.
Proof.
  intros [[[s1 e1] t1] i1] [[[s2 e2] t2] i2]; unfold parsed_leb.
  destruct (Z.ltb_spec s1 s2); [now left|].
  destruct (Z.ltb_spec s2 s1); [now right|].
  destruct (Z.ltb_spec e1 e2); [now left|].
  destruct (Z.ltb_spec e2 e1); [now right|].
  rewrite (String.compare_antisym t1 t2).
  destruct (String.compare t2 t1); simpl; auto.
  apply String.leb_total.
Qed.

Module ParsedOrder <: TotalLeBool.
Definition t : Type := parsed_event.
Definition leb : t -> t -> bool := parsed_leb.
Definition leb_total : forall a b, leb a b = true \/ leb b a = true := parsed_leb_total.
End ParsedOrder.

Module ParsedSort := Sort ParsedOrder.

Record overlap_report : Type := {
  ov_event_1 : string;
  ov_event_2 : string;
  overlap_start : datetime;
  overlap_end : datetime
}.

Record tight_report : Type := {
  tt_event_1 : string;
  event_1_end : datetime;
  tt_event_2 : string;
  event_2_start : datetime;
  gap_minutes : float
}.

Record long_report : Type := {
  long_event : string;
  long_start : datetime;
  long_end : datetime;
  duration_hours : float
}.

(** The three lists the scan fills. *)
Record findings : Type := {
  overlaps : list overlap_report;
  tight_transitions : list tight_report;
  long_events : list long_report
}.

Record conflicts_payload : Type := {
  date_range : string * string;
  cp_overlaps : list overlap_report;
  cp_tight_transitions : list tight_report;
  cp_long_events : list long_report;
  all_clear : bool
}.

(** [td.total_seconds() > k] and [td.total_seconds() < k] for an int [k] of
    seconds.  [total_seconds()] is the correctly rounded quotient of the
    microsecond count by 10^6 and [k] is a float exactly, so the comparison
    of floats holds exactly when that of the microsecond counts does. *)
Definition longer_than (td : timedelta) (seconds : Z) : bool :=
  seconds * us_per_second <? td.

Definition shorter_than (td : timedelta) (seconds : Z) : bool :=
  td <? seconds * us_per_second.

Definition long_of (p : parsed_event) : long_report :=
  let '(s1, e1, title1, _) := p in
  {| long_event := title1; long_start := s1; long_end := e1;
     duration_hours := round1 (float_div_int (total_seconds (e1 - s1)) 3600) |}.

Definition overlap_of (p1 p2 : parsed_event) : overlap_report :=
  let '(s1, e1, title1, _) := p1 in
  let '(s2, e2, title2, _) := p2 in
  {| ov_event_1 := title1; ov_event_2 := title2;
     overlap_start := s2; overlap_end := Z.min e1 e2 |}.

Definition tight_of (p1 p2 : parsed_event) : tight_report :=
  let '(s1, e1, title1, _) := p1 in
  let '(s2, e2, title2, _) := p2 in
  {| tt_event_1 := title1; event_1_end := e1;
     tt_event_2 := title2; event_2_start := s2;
     gap_minutes := round1 (float_div_int (total_seconds (s2 - e1)) 60) |}.

Definition p_start (p : parsed_event) : datetime := fst (fst (fst p)).
Definition p_end (p : parsed_event) : datetime := snd (fst (fst p)).

Definition is_long (p : parsed_event) : bool :=
  longer_than (p_end p - p_start p) (4 * 3600).

Definition is_overlap (p1 p2 : parsed_event) : bool :=
  p_start p2 <? p_end p1.

Definition is_tight (p1 p2 : parsed_event) : bool :=
  shorter_than (p_start p2 - p_end p1) 600.

(** The loop of lines 261-292 over [enumerate(parsed)]; [rest] holds
    [parsed[i + 1:]]. *)
Fixpoint scan (parsed : list parsed_event) (f : findings) : findings :=
  match parsed with
  | [] => f
  | p1 :: rest =>
      let f :=
        if is_long p1
        then {| overlaps := overlaps f; tight_transitions := tight_transitions f;
                long_events := long_events f ++ [long_of p1] |}
        else f in
      match rest with
      | [] => f
      | p2 :: _ =>
          let f :=
            if is_overlap p1 p2
            then {| overlaps := overlaps f ++ [overlap_of p1 p2];
                    tight_transitions := tight_transitions f;
                    long_events := long_events f |}
            else if is_tight p1 p2
            then {| overlaps := overlaps f;
                    tight_transitions := tight_transitions f ++ [tight_of p1 p2];
                    long_events := long_events f |}
            else f in
          scan rest f
      end
  end.

Definition no_findings : findings :=
  {| overlaps := []; tight_transitions := []; long_events := [] |}.

(** [not l] for a list. *)
Definition is_empty {A : Type} (l : list A) : bool :=
  match l with
  | [] => true
  | _ => false
  end.

(** Lines 255-303: sort, scan, assemble the document. *)
Definition conflicts_of (start_date end_date : string) (parsed : list parsed_event)
  : conflicts_payload :=
  let parsed := ParsedSort.sort parsed in
  let f := scan parsed no_findings in
  {| date_range := (start_date, end_date);
     cp_overlaps := overlaps f;
     cp_tight_transitions := tight_transitions f;
     cp_long_events := long_events f;
     all_clear := is_empty (overlaps f) && is_empty (tight_transitions f) |}.





Record FindConflictsInput : Type := {
  start_date : string;
  end_date : string;
  conflicts_calendar_id : string
}.


Section WithExternals.
Context `{ext : Externals}.


(** The body of the [try] in the parsing loop. *)
Definition parse_event (ev : event) : result parsed_event :=
  let start_str := or_ (tf_dateTime (ev_start ev)) (tf_date (ev_start ev)) in
  let end_str := or_ (tf_dateTime (ev_end ev)) (tf_date (ev_end ev)) in
  bind (fromisoformat parse_zoned start_str) (fun s =>
  bind (fromisoformat parse_zoned end_str) (fun e =>
  Ok (s, e, match ev_summary ev with Some t => t | None => "(no title)" end, ev_id ev))).

(** Lines 244-253. *)
Fixpoint build_parsed (events : list event) (parsed : list parsed_event)
  : result (list parsed_event) :=
  match events with
  | [] => Ok parsed
  | ev :: rest =>
      match parse_event ev with
      | Ok p => build_parsed rest (parsed ++ [p])
      | Raise (ValueError _) => build_parsed rest parsed
      | Raise e => Raise e
      end
  end.

Definition schedule_find_conflicts (params : FindConflictsInput)
  : world -> reply conflicts_payload * world :=
  try_except
    (events <- get_events (start_date params) (end_date params)
                          (conflicts_calendar_id params) 50 ;;
     parsed <- lift (build_parsed events []) ;;
     ret (Json (conflicts_of (start_date params) (end_date params) parsed)))
    (fun e => Text ("Error checking for conflicts: " ++ str e)%string).

End WithExternals.

End ScheduleTools.

(* ====================================================================== *)
(** * A concrete reading of the externals, for the worked examples *)
(* ====================================================================== *)

Module Iso.
Import Py Provider.

Definition digit (c : ascii) : option Z :=
  let n := Z.of_N (N_of_ascii c) in
  if (48 <=? n) && (n <=? 57) then Some (n - 48) else None.

Fixpoint number (cs : list ascii) (acc : Z) : option Z :=
  match cs with
  | [] => Some acc
  | c :: cs =>
      match digit c with
      | Some d => number cs (10 * acc + d)
      | None => None
      end
  end.

(** The [len] digits of [s] from position [pos]. *)
Definition field (s : string) (pos len : nat) : option Z :=
  let sub := substring pos len s in
  if Nat.eqb (String.length sub) len
  then number (list_ascii_of_string sub) 0
  else None.

Definition char_at (s : string) (pos : nat) (c : ascii) : bool :=
  match String.get pos s with
  | Some c' => Ascii.eqb c c'
  | None => false
  end.

Definition is_leap (y : Z) : bool :=
  ((y mod 4 =? 0) && negb (y mod 100 =? 0)) || (y mod 400 =? 0).

Definition days_in_month (y m : Z) : Z :=
  if m =? 2 then (if is_leap y then 29 else 28)
  else if (m =? 4) || (m =? 6) || (m =? 9) || (m =? 11) then 30
  else 31.

(** Days from 1970-01-01 to the given civil date. *)
Definition days_from_civil (y m d : Z) : Z :=
  let y := if m <=? 2 then y - 1 else y in
  let era := y / 400 in
  let yoe := y - era * 400 in
  let doy := (153 * (if 2 <? m then m - 3 else m + 9) + 2) / 5 + d - 1 in
  let doe := yoe * 365 + yoe / 4 - yoe / 100 + doy in
  era * 146097 + doe - 719468.

Definition civil (s : string) : option datetime :=
  match field s 0 4, field s 5 2, field s 8 2 with
  | Some y, Some m, Some d =>
      if char_at s 4 "-" && char_at s 7 "-"
         && (1 <=? m) && (m <=? 12) && (1 <=? d) && (d <=? days_in_month y m)
      then Some (days_from_civil y m d * us_per_day)
      else None
  | _, _, _ => None
  end.

Definition clock (s : string) : option timedelta :=
  match field s 11 2, field s 14 2, field s 17 2 with
  | Some h, Some mi, Some sec =>
      if char_at s 10 "T" && char_at s 13 ":" && char_at s 16 ":"
         && (h <=? 23) && (mi <=? 59) && (sec <=? 59)
      then Some (h * us_per_hour + mi * us_per_minute + sec * us_per_second)
      else None
  | _, _, _ => None
  end.

Definition offset_ok (s : string) : bool :=
  (char_at s 19 "+" || char_at s 19 "-") && char_at s 22 ":"
  && match field s 20 2, field s 23 2 with
     | Some h, Some mi => (h <=? 23) && (mi <=? 59)
     | _, _ => false
     end.

(** Reads [YYYY-MM-DD], [YYYY-MM-DDTHH:MM:SS] and the latter followed by a
    UTC offset [+HH:MM] or [-HH:MM].  The reading is the wall-clock time as
    written: the strings of the examples are written in the configured
    zone, with the offset that zone has at that instant. *)
Definition parse (s : string) : option datetime :=
  match String.length s with
  | 10%nat => civil s
  | 19%nat =>
      match civil s, clock s with
      | Some d, Some t => Some (d + t)
      | _, _ => None
      end
  | 25%nat =>
      match civil s, clock s with
      | Some d, Some t => if offset_ok s then Some (d + t) else None
      | _, _ => None
      end
  | _ => None
  end.

Definition string_leb (a b : string) : bool := negb (String.ltb b a).

(** A filter of the Tasks query; a task without the property fails it. *)
Definition meets (bound : option string) (test : string -> string -> bool)
           (value : option string) : bool :=
  match bound, value with
  | None, _ => true
  | Some b, Some v => test v b
  | Some _, None => false
  end.

#[export] Instance externals : Externals := {|
  parse_wall := parse;
  parse_zoned := parse;
  (* every stored event of the calendar, in stored order: the example
     worlds hold the events of the queried range only *)
  listed := fun cal calendar_id _ _ max_results =>
    firstn (Z.to_nat max_results)
           (map snd (filter (fun p => String.eqb (fst p) calendar_id) cal));
  stored := fun cal _ body =>
    {| ev_id := ("evt" ++ str_int (Z.of_nat (List.length cal)))%string;
       ev_summary := Some (body_summary body);
       ev_start := {| tf_dateTime := Some (body_start body); tf_date := None |};
       ev_end := {| tf_dateTime := Some (body_end body); tf_date := None |};
       ev_description := body_description body;
       ev_location := body_location body |};
  matching := fun db by_status due_before due_after =>
    filter (fun t => meets by_status String.eqb (status t)
                     && meets due_before string_leb (due_date t)
                     && meets due_after (fun v b => string_leb b v) (due_date t)) db;
  local_timezone := "America/Los_Angeles"
|}.

(** The reading of a well-formed string. *)
Definition instant (s : string) : datetime :=
  match parse s with
  | Some t => t
  | None => 0
  end.

(** A timed event. *)
Definition timed (id title dt_start dt_end : string) : event :=
  {| ev_id := id; ev_summary := Some title;
     ev_start := {| tf_dateTime := Some dt_start; tf_date := None |};
     ev_end := {| tf_dateTime := Some dt_end; tf_date := None |};
     ev_description := None; ev_location := None |}.

(** A world whose primary calendar holds [events]. *)
Definition world_of (events : list event) (db : list task) (day : string)
           (failures : list (option exn)) : world :=
  {| calendar := map (fun ev => ("primary", ev)) events;
     tasks_db := db; today := day; faults := failures; journal := [] |}.

End Iso.

(* ====================================================================== *)
(** * Sorting *)
(* ====================================================================== *)

(** [list.sort()] returns the sorted arrangement of the list.  Both tuple
    orders are total and antisymmetric, so that arrangement is unique and
    the merge sort used here returns it. *)
Module SortFacts.
Import Py GCal ScheduleTools.

Section Unique.
Context {A : Type} (leb : A -> A -> bool).
Hypothesis leb_antisym : forall a b, leb a b = true -> leb b a = true -> a = b.


End Unique.














End SortFacts.

(* ====================================================================== *)
(** * The free-slot finder *)
(* ====================================================================== *)

Module FreeSlotFacts.
Import Py Provider GCal.




Definition slot_at (cursor : datetime) (slot_delta : timedelta) : slot :=
  {| slot_start := cursor; slot_end := cursor + slot_delta |}.

(** One turn of the loop, in two halves. *)
Definition emit (slot_delta : timedelta) (cursor : datetime) (w : window) : list slot :=
  if cursor + slot_delta <=? fst w then [slot_at cursor slot_delta] else [].

Definition advance (cursor : datetime) (w : window) : datetime :=
  if snd w >? cursor then snd w else cursor.

(** Where the cursor ends and what the loop appends. *)
Definition final (slot_delta : timedelta) (busy : list window) (cursor : datetime) : datetime :=
  fst (walk slot_delta busy cursor []).

Definition emitted (slot_delta : timedelta) (busy : list window) (cursor : datetime)
  : list slot :=
  snd (walk slot_delta busy cursor []).



Section Walk.
Variable d : timedelta.

Lemma walk_cons w rest c acc :
  walk d (w :: rest) c acc = walk d rest (advance c w) (acc ++ emit d c w).
Proof.
  destruct w as [bs be]; simpl; unfold emit, advance; simpl.
  destruct (c + d <=? bs); [reflexivity | now rewrite app_nil_r].
Qed.

Lemma walk_acc busy : forall c acc,
  walk d busy c acc = (final d busy c, acc ++ emitted d busy c).
Proof.
  unfold final, emitted.
  induction busy as [|w rest IH]; intros c acc.
  - simpl; now rewrite app_nil_r.
  - rewrite !walk_cons, (IH _ (acc ++ emit d c w)), (IH _ ([] ++ emit d c w)).
    simpl; now rewrite app_assoc.
Qed.

Lemma final_cons w rest c : final d (w :: rest) c = final d rest (advance c w).
Proof. unfold final; now rewrite walk_cons, walk_acc. Qed.

Lemma emitted_cons w rest c :
  emitted d (w :: rest) c = emit d c w ++ emitted d rest (advance c w).
Proof. unfold emitted at 1; now rewrite walk_cons, walk_acc. Qed.

Lemma advance_ge c w : c <= advance c w /\ snd w <= advance c w.
Proof. unfold advance; destruct (Z.gtb_spec (snd w) c); lia. Qed.

(** The cursor never moves back. *)
Lemma final_ge busy : forall c, c <= final d busy c.
Proof.
  induction busy as [|w rest IH]; intros c.
  - unfold final; simpl; lia.
  - rewrite final_cons. pose proof (advance_ge c w). pose proof (IH (advance c w)). lia.
Qed.


Lemma emit_shape c w s :
  In s (emit d c w) -> s = slot_at c d /\ c + d <= fst w.
Proof.
  unfold emit. destruct (Z.leb_spec (c + d) (fst w)); simpl; [|tauto].
  intros [<-|[]]; auto.
Qed.





End Walk.

(** ** The sort *)



Lemma sort_in busy w : In w (WindowSort.sort busy) <-> In w busy.
Proof.
  split; apply Permutation_in;
    [apply Permutation_sym|]; apply WindowSort.Permuted_sort.
Qed.


(** ** The slots of a day *)

Definition last_slot (d : timedelta) (cursor day_end : datetime) : list slot :=
  if cursor + d <=? day_end then [slot_at cursor d] else [].

Lemma slots_of_busy_eq day_start day_end duration_minutes busy :
  slots_of_busy day_start day_end duration_minutes busy =
  let d := minutes duration_minutes in
  let sorted := WindowSort.sort busy in
  emitted d sorted day_start ++ last_slot d (final d sorted day_start) day_end.
Proof.
  unfold slots_of_busy, last_slot. cbv zeta.
  rewrite walk_acc; simpl.
  destruct (_ <=? day_end); [reflexivity | now rewrite app_nil_r].
Qed.

Lemma last_slot_shape d c day_end s :
  In s (last_slot d c day_end) -> s = slot_at c d /\ c + d <= day_end.
Proof.
  unfold last_slot. destruct (Z.leb_spec (c + d) day_end); simpl; [|tauto].
  intros [<-|[]]; auto.
Qed.



Section Day.
Variables (day_start day_end : datetime) (duration_minutes : Z) (busy : list window).

Let slots := slots_of_busy day_start day_end duration_minutes busy.






(** An empty or inverted working window yields no slot as long as no
    window starts [duration_minutes] or more after [day_start]. *)
Lemma slots_none_in_empty_day :
  day_end <= day_start -> 0 < duration_minutes ->
  Forall (fun w => fst w < day_start + minutes duration_minutes) busy ->
  slots = [].
Proof.
  intros Hday Hpos Hbusy. subst slots. rewrite slots_of_busy_eq. cbv zeta.
  assert (Hd : 0 < minutes duration_minutes) by (unfold minutes, us_per_minute, us_per_second; lia).
  assert (Hnone : emitted (minutes duration_minutes) (WindowSort.sort busy) day_start = []).
  { assert (Hsorted : Forall (fun w => fst w < day_start + minutes duration_minutes)
                             (WindowSort.sort busy)).
    { rewrite Forall_forall in *. intros w Hw. apply Hbusy. now apply sort_in. }
    revert Hsorted. generalize (WindowSort.sort busy) as l.
    generalize (Z.le_refl day_start). generalize day_start at 2 4 as c.
    intros c Hc l; revert c Hc.
    induction l as [|w l IH]; intros c Hc Hl; [reflexivity|].
    inversion Hl; subst. rewrite emitted_cons. unfold emit.
    destruct (Z.leb_spec (c + minutes duration_minutes) (fst w)); [lia|].
    simpl. apply IH; [|assumption]. pose proof (advance_ge c w). lia. }
  rewrite Hnone; simpl. unfold last_slot.
  pose proof (final_ge (minutes duration_minutes) (WindowSort.sort busy) day_start).
  destruct (Z.leb_spec (final (minutes duration_minutes) (WindowSort.sort busy) day_start
                        + minutes duration_minutes) day_end); [lia|reflexivity].
Qed.

End Day.

(** ** The client function *)

Section Finder.
Context `{ext : Externals}.

(** The order in which [find_free_slots] can stop. *)
Lemma find_free_slots_run date duration_minutes earliest_hour latest_hour calendar_id w :
  find_free_slots date duration_minutes earliest_hour latest_hour calendar_id w =
  match fromisoformat parse_wall (Some date) with
  | Raise e => (Raise e, w)
  | Ok d =>
      match replace_hour d earliest_hour with
      | Raise e => (Raise e, w)
      | Ok day_start =>
          match replace_hour d latest_hour with
          | Raise e => (Raise e, w)
          | Ok day_end =>
              match get_events date date calendar_id 50 w with
              | (Raise e, w') => (Raise e, w')
              | (Ok events, w') =>
                  match build_busy events [] with
                  | Raise e => (Raise e, w')
                  | Ok busy =>
                      (Ok (slots_of_busy day_start day_end duration_minutes busy), w')
                  end
              end
          end
      end
  end.
Proof.
  unfold find_free_slots, bindM, lift, ret.
  destruct (fromisoformat parse_wall (Some date)); [|reflexivity].
  destruct (replace_hour a earliest_hour); [|reflexivity].
  destruct (replace_hour a latest_hour); [|reflexivity].
  destruct (get_events date date calendar_id 50 w) as [[events|e] w']; [|reflexivity].
  destruct (build_busy events []); reflexivity.
Qed.

Lemma find_free_slots_inv date duration_minutes earliest_hour latest_hour calendar_id
      w slots w' :
  find_free_slots date duration_minutes earliest_hour latest_hour calendar_id w
  = (Ok slots, w') ->
  exists d day_start day_end events busy,
    parse_wall date = Some d
    /\ replace_hour d earliest_hour = Ok day_start
    /\ replace_hour d latest_hour = Ok day_end
    /\ get_events date date calendar_id 50 w = (Ok events, w')
    /\ build_busy events [] = Ok busy
    /\ slots = slots_of_busy day_start day_end duration_minutes busy.
Proof.
  rewrite find_free_slots_run. unfold fromisoformat.
  destruct (parse_wall date) as [d|] eqn:Hd; [|discriminate].
  destruct (replace_hour d earliest_hour) as [day_start|] eqn:Hs; [|discriminate].
  destruct (replace_hour d latest_hour) as [day_end|] eqn:He; [|discriminate].
  destruct (get_events date date calendar_id 50 w) as [[events|e] w1] eqn:Hev;
    [|discriminate].
  destruct (build_busy events []) as [busy|] eqn:Hbusy; [|discriminate].
  intros [= <- <-]. exists d, day_start, day_end, events, busy. auto 10.
Qed.

(** With a date that parses, hours in 0..23, a provider call that succeeds
    and events that all parse or raise [ValueError], [find_free_slots]
    returns. *)
Lemma find_free_slots_returns date duration_minutes earliest_hour latest_hour calendar_id
      w d events w1 busy :
  parse_wall date = Some d ->
  0 <= earliest_hour <= 23 -> 0 <= latest_hour <= 23 ->
  get_events date date calendar_id 50 w = (Ok events, w1) ->
  build_busy events [] = Ok busy ->
  exists day_start day_end,
    replace_hour d earliest_hour = Ok day_start
    /\ replace_hour d latest_hour = Ok day_end
    /\ find_free_slots date duration_minutes earliest_hour latest_hour calendar_id w
       = (Ok (slots_of_busy day_start day_end duration_minutes busy), w1).
Proof.
  intros Hd He Hl Hev Hbusy. rewrite find_free_slots_run. unfold fromisoformat.
  rewrite Hd, Hev, Hbusy. unfold replace_hour.
  destruct (Z.leb_spec 0 earliest_hour), (Z.leb_spec earliest_hour 23); try lia.
  destruct (Z.leb_spec 0 latest_hour), (Z.leb_spec latest_hour 23); try lia.
  simpl. eauto.
Qed.


End Finder.

(** ** Worked days *)

Import Iso.








(** Such windows also arise from well-formed events.  On the day daylight
    saving time ends in Los Angeles the wall clock reads the hour from
    01:00 to 02:00 twice; an event from 01:30 PDT to 01:10 PST lasts forty
    minutes, and read on the wall clock, as the comparisons of the code read
    it, it ends before it starts.  The two slots returned overlap on the
    wall clock from 01:10 to 01:30. *)
Definition fall_back : world :=
  world_of [timed "n" "Night shift" "2026-11-01T01:30:00-07:00" "2026-11-01T01:10:00-08:00"]
           [] "2026-11-01" [].

Example free_slots_on_fall_back :
  fst (find_free_slots "2026-11-01" 30 1 20 "primary" fall_back)
  = Ok [slot_at (instant "2026-11-01T01:00:00") (minutes 30);
        slot_at (instant "2026-11-01T01:10:00") (minutes 30)].
Proof. vm_compute; reflexivity. Qed.

(** An evening event after the latest hour. *)
Definition evening : world :=
  world_of [timed "a" "Dinner prep" "2026-02-17T19:00:00-08:00" "2026-02-17T19:30:00-08:00";
            timed "b" "Concert" "2026-02-17T21:00:00-08:00" "2026-02-17T22:00:00-08:00"]
           [] "2026-02-17" [].

(** C4 at a day with an event after [latest_hour]: with the default hours
    8 and 20 and sixty minutes asked for, the second slot returned runs
    from 19:30 to 20:30, past [day_end]. *)
Theorem slot_past_latest_hour :
  replace_hour (instant "2026-02-17") 20 = Ok (instant "2026-02-17T20:00:00")
  /\ fst (find_free_slots "2026-02-17" 60 8 20 "primary" evening)
     = Ok [slot_at (instant "2026-02-17T08:00:00") (minutes 60);
           slot_at (instant "2026-02-17T19:30:00") (minutes 60)]
  /\ instant "2026-02-17T20:00:00"
     < slot_end (slot_at (instant "2026-02-17T19:30:00") (minutes 60)).
Proof. repeat split; vm_compute; reflexivity. Qed.

(** One afternoon meeting. *)
Definition afternoon : world :=
  world_of [timed "a" "Meeting" "2026-02-17T15:00:00-08:00" "2026-02-17T16:00:00-08:00"]
           [] "2026-02-17" [].

(** C5 at [earliest_hour = 10], [latest_hour = 9]: the working window is
    empty and a slot from 10:00 to 11:00 is returned all the same. *)
Theorem slot_in_empty_working_window :
  fst (find_free_slots "2026-02-17" 60 10 9 "primary" afternoon)
  = Ok [slot_at (instant "2026-02-17T10:00:00") (minutes 60)].
Proof. vm_compute; reflexivity. Qed.

End FreeSlotFacts.

(* ====================================================================== *)
(** * The conflict detector *)
(* ====================================================================== *)

Module ConflictFacts.
Import Py Provider GCal CalendarTools ScheduleTools.

(** The pairs [(parsed[i], parsed[i + 1])]. *)
Fixpoint adjacent {A : Type} (l : list A) : list (A * A) :=
  match l with
  | [] => []
  | a :: rest =>
      match rest with
      | [] => []
      | b :: _ => (a, b) :: adjacent rest
      end
  end.


Definition overlapping (pr : parsed_event * parsed_event) : bool :=
  is_overlap (fst pr) (snd pr).

Definition tight (pr : parsed_event * parsed_event) : bool :=
  negb (is_overlap (fst pr) (snd pr)) && is_tight (fst pr) (snd pr).

(** Hours and minutes of a timedelta as the reports give them. *)
Definition in_hours (td : timedelta) : float :=
  round1 (float_div_int (total_seconds td) 3600).

Definition in_minutes (td : timedelta) : float :=
  round1 (float_div_int (total_seconds td) 60).

(** One turn of the loop, in two halves. *)
Definition note_long (p1 : parsed_event) (f : findings) : findings :=
  if is_long p1
  then {| overlaps := overlaps f; tight_transitions := tight_transitions f;
          long_events := long_events f ++ [long_of p1] |}
  else f.

Definition note_pair (p1 p2 : parsed_event) (f : findings) : findings :=
  if is_overlap p1 p2
  then {| overlaps := overlaps f ++ [overlap_of p1 p2];
          tight_transitions := tight_transitions f;
          long_events := long_events f |}
  else if is_tight p1 p2
  then {| overlaps := overlaps f;
          tight_transitions := tight_transitions f ++ [tight_of p1 p2];
          long_events := long_events f |}
  else f.

Lemma scan_last p1 f : scan [p1] f = note_long p1 f.
Proof. reflexivity. Qed.

Lemma scan_next p1 p2 rest f :
  scan (p1 :: p2 :: rest) f = scan (p2 :: rest) (note_pair p1 p2 (note_long p1 f)).
Proof. reflexivity. Qed.

Lemma adjacent_next {A : Type} (a b : A) l :
  adjacent (a :: b :: l) = (a, b) :: adjacent (b :: l).
Proof. reflexivity. Qed.

Ltac turn p1 p2 :=
  unfold note_pair, note_long, overlapping, tight; cbn [fst snd];
  destruct (is_long p1), (is_overlap p1 p2), (is_tight p1 p2);
  cbn [filter map negb andb overlaps tight_transitions long_events];
  rewrite <- ?app_assoc; reflexivity.

Lemma scan_overlaps parsed : forall f,
  overlaps (scan parsed f) =
  overlaps f ++ map (fun pr => overlap_of (fst pr) (snd pr))
                    (filter overlapping (adjacent parsed)).
Proof.
  induction parsed as [|p1 [|p2 rest] IH]; intros f.
  - simpl; now rewrite app_nil_r.
  - rewrite scan_last. unfold note_long.
    destruct (is_long p1); simpl; now rewrite app_nil_r.
  - rewrite scan_next, adjacent_next, IH. cbn [filter]. turn p1 p2.
Qed.

Lemma scan_tight parsed : forall f,
  tight_transitions (scan parsed f) =
  tight_transitions f ++ map (fun pr => tight_of (fst pr) (snd pr))
                             (filter tight (adjacent parsed)).
Proof.
  induction parsed as [|p1 [|p2 rest] IH]; intros f.
  - simpl; now rewrite app_nil_r.
  - rewrite scan_last. unfold note_long.
    destruct (is_long p1); simpl; now rewrite app_nil_r.
  - rewrite scan_next, adjacent_next, IH. cbn [filter]. turn p1 p2.
Qed.

Lemma scan_long parsed : forall f,
  long_events (scan parsed f) = long_events f ++ map long_of (filter is_long parsed).
Proof.
  induction parsed as [|p1 [|p2 rest] IH]; intros f.
  - simpl; now rewrite app_nil_r.
  - rewrite scan_last. unfold note_long. cbn [filter].
    destruct (is_long p1); simpl; now rewrite ?app_nil_r.
  - rewrite scan_next, IH. cbn [filter]. turn p1 p2.
Qed.



Lemma is_long_iff p : is_long p = true <-> 4 * us_per_hour < p_end p - p_start p.
Proof.
  unfold is_long, longer_than, us_per_hour. rewrite Z.ltb_lt. lia.
Qed.




(** ** Rounding to one decimal *)

(** [round_half_even] is off by at most half a unit. *)
Lemma round_half_even_nearest num den :
  0 < den -> 2 * Z.abs (num - den * round_half_even num den) <= den.
Proof.
  intros Hden. unfold round_half_even.
  pose proof (Z.div_mod num den ltac:(lia)) as Hdm.
  pose proof (Z.mod_pos_bound num den Hden) as Hr.
  destruct (Z.compare_spec (2 * (num mod den)) den); [destruct (Z.even _)| |]; lia.
Qed.

(** The tenths that [round1] settles on are a nearest count of tenths to
    the magnitude [m * 2^e] of its argument. *)
Lemma tenths_nearest m e :
  e < 0 -> 2 * Z.abs (10 * Zpos m - 2 ^ (- e) * tenths m e) <= 2 ^ (- e).
Proof.
  intros He. unfold tenths. destruct (Z.leb_spec 0 e); [lia|].
  apply round_half_even_nearest. apply Z.pow_pos_nonneg; lia.
Qed.

Lemma tenths_exact m e : 0 <= e -> tenths m e = 10 * (Zpos m * 2 ^ e).
Proof. intros He. unfold tenths. destruct (Z.leb_spec 0 e); lia. Qed.

(** Five minutes read 5.0 and five hours read 5.0; 189 seconds are 3.15
    minutes and read 3.1, the double nearest to 3.15 lying below it. *)
Example five_minutes : in_minutes (minutes 5) = float_of_int 5.
Proof. vm_compute; reflexivity. Qed.

Example five_hours : in_hours (5 * us_per_hour) = float_of_int 5.
Proof. vm_compute; reflexivity. Qed.

Example three_minutes_nine_seconds :
  in_minutes (189 * us_per_second) = int_truediv 31 10.
Proof. vm_compute; reflexivity. Qed.

(** The comparisons of [total_seconds()] with 600 and 14400 on floats turn
    where those of the microsecond counts do. *)
Example thresholds_on_floats :
  SFltb (total_seconds (600 * us_per_second - 1)) (float_of_int 600) = true
  /\ SFltb (total_seconds (600 * us_per_second)) (float_of_int 600) = false
  /\ SFltb (float_of_int 14400) (total_seconds (14400 * us_per_second + 1)) = true
  /\ SFltb (float_of_int 14400) (total_seconds (14400 * us_per_second)) = false.
Proof. repeat split; vm_compute; reflexivity. Qed.

(** ** The tool *)

Section Detector.
Context `{ext : Externals}.

Lemma schedule_find_conflicts_run params w :
  schedule_find_conflicts params w =
  match get_events (start_date params) (end_date params)
                   (conflicts_calendar_id params) 50 w with
  | (Raise e, w') => (Text ("Error checking for conflicts: " ++ str e)%string, w')
  | (Ok events, w') =>
      match build_parsed events [] with
      | Raise e => (Text ("Error checking for conflicts: " ++ str e)%string, w')
      | Ok parsed =>
          (Json (conflicts_of (start_date params) (end_date params) parsed), w')
      end
  end.
Proof.
  unfold schedule_find_conflicts, try_except, bindM, lift, ret.
  destruct (get_events _ _ _ 50 w) as [[events|e] w']; [|reflexivity].
  destruct (build_parsed events []); reflexivity.
Qed.



End Detector.

(** ** Worked ranges *)

Import Iso.

Definition on_the_17th : FindConflictsInput :=
  {| start_date := "2026-02-17"; end_date := "2026-02-17";
     conflicts_calendar_id := "primary" |}.

(** A workshop from 09:00 to 14:30 with a break-out inside it and a lunch
    that it also covers, then a call five minutes after it. *)
Definition workshop_day : world :=
  world_of [timed "a" "Workshop" "2026-02-17T09:00:00-08:00" "2026-02-17T14:30:00-08:00";
            timed "b" "Break-out" "2026-02-17T09:30:00-08:00" "2026-02-17T10:00:00-08:00";
            timed "c" "Lunch" "2026-02-17T12:00:00-08:00" "2026-02-17T13:00:00-08:00";
            timed "d" "Call" "2026-02-17T13:05:00-08:00" "2026-02-17T13:30:00-08:00"]
           [] "2026-02-17" [].


(** The workshop overlaps the lunch and the call as well, and only its
    overlap with the event next to it is reported. *)
Example nonadjacent_overlap_unreported :
  fst (schedule_find_conflicts on_the_17th workshop_day) =
  Json {| date_range := ("2026-02-17", "2026-02-17");
          cp_overlaps :=
            [{| ov_event_1 := "Workshop"; ov_event_2 := "Break-out";
                overlap_start := instant "2026-02-17T09:30:00";
                overlap_end := instant "2026-02-17T10:00:00" |}];
          cp_tight_transitions :=
            [{| tt_event_1 := "Lunch"; event_1_end := instant "2026-02-17T13:00:00";
                tt_event_2 := "Call"; event_2_start := instant "2026-02-17T13:05:00";
                gap_minutes := float_of_int 5 |}];
          cp_long_events :=
            [{| long_event := "Workshop";
                long_start := instant "2026-02-17T09:00:00";
                long_end := instant "2026-02-17T14:30:00";
                duration_hours := int_truediv 55 10 |}];
          all_clear := false |}.
Proof. vm_compute; reflexivity. Qed.



End ConflictFacts.

(* ====================================================================== *)
(** * Malformed events *)
(* ====================================================================== *)

Module MalformedFacts.
Import Py Provider GCal CalendarTools ScheduleTools.

Definition start_str (ev : event) : option string :=
  or_ (tf_dateTime (ev_start ev)) (tf_date (ev_start ev)).

Definition end_str (ev : event) : option string :=
  or_ (tf_dateTime (ev_end ev)) (tf_date (ev_end ev)).

(** An event that supplies a start string and an end string. *)
Definition dated (ev : event) : Prop := start_str ev <> None /\ end_str ev <> None.

Definition is_ok {A : Type} (r : result A) : bool :=
  match r with
  | Ok _ => true
  | Raise _ => false
  end.

(** ** The shape both parsing loops share *)

Section Loop.
Context {A : Type} (item : event -> result A).

Fixpoint collect (events : list event) (acc : list A) : result (list A) :=
  match events with
  | [] => Ok acc
  | ev :: rest =>
      match item ev with
      | Ok a => collect rest (acc ++ [a])
      | Raise (ValueError _) => collect rest acc
      | Raise e => Raise e
      end
  end.

(** The items of the events that parse. *)
Definition accepted (events : list event) : list A :=
  flat_map (fun ev => match item ev with Ok a => [a] | Raise _ => [] end) events.

(** An event the loop gets past: it parses or raises [ValueError]. *)
Definition passable (ev : event) : Prop :=
  match item ev with
  | Ok _ | Raise (ValueError _) => True
  | Raise _ => False
  end.

Lemma collect_passable events : forall acc,
  Forall passable events -> collect events acc = Ok (acc ++ accepted events).
Proof.
  induction events as [|ev rest IH]; intros acc Hpass; simpl.
  - now rewrite app_nil_r.
  - inversion Hpass as [|? ? Hev Hrest]; subst. unfold passable in Hev.
    destruct (item ev) as [a|[]]; try contradiction.
    + rewrite IH by assumption. now rewrite <- app_assoc.
    + now apply IH.
Qed.

Lemma accepted_filter events :
  accepted (filter (fun ev => is_ok (item ev)) events) = accepted events.
Proof.
  induction events as [|ev rest IH]; simpl; [reflexivity|].
  destruct (item ev) as [a|e] eqn:Hev; simpl; [|exact IH].
  now rewrite Hev, IH.
Qed.

Lemma passable_filter events :
  Forall passable (filter (fun ev => is_ok (item ev)) events).
Proof.
  apply Forall_forall. intros ev Hin. apply filter_In in Hin as [_ Hok].
  unfold passable. now destruct (item ev).
Qed.

(** Over passable events the loop gives what it gives over the parsing
    ones alone. *)
Lemma collect_drops events acc :
  Forall passable events ->
  collect events acc = collect (filter (fun ev => is_ok (item ev)) events) acc.
Proof.
  intros Hpass. rewrite !collect_passable; auto using passable_filter.
  now rewrite accepted_filter.
Qed.


End Loop.

Section Batches.
Context `{ext : Externals}.

Lemma build_busy_collect events : forall busy,
  build_busy events busy = collect parse_window events busy.
Proof.
  induction events as [|ev rest IH]; intros busy; simpl; [reflexivity|].
  destruct (parse_window ev) as [w|[]]; auto.
Qed.

Lemma build_parsed_collect events : forall parsed,
  build_parsed events parsed = collect parse_event events parsed.
Proof.
  induction events as [|ev rest IH]; intros parsed; simpl; [reflexivity|].
  destruct (parse_event ev) as [w|[]]; auto.
Qed.

Lemma dated_passable_window ev : dated ev -> passable parse_window ev.
Proof.
  unfold dated, passable, parse_window, start_str, end_str.
  destruct (or_ (tf_dateTime (ev_start ev)) _) as [s|]; [|tauto].
  destruct (or_ (tf_dateTime (ev_end ev)) _) as [e|]; [|tauto].
  intros _. simpl. destruct (parse_zoned s); simpl; [|exact I].
  destruct (parse_zoned e); simpl; exact I.
Qed.

Lemma dated_passable_event ev : dated ev -> passable parse_event ev.
Proof.
  unfold dated, passable, parse_event, start_str, end_str.
  destruct (or_ (tf_dateTime (ev_start ev)) _) as [s|]; [|tauto].
  destruct (or_ (tf_dateTime (ev_end ev)) _) as [e|]; [|tauto].
  intros _. simpl. destruct (parse_zoned s); simpl; [|exact I].
  destruct (parse_zoned e); simpl; exact I.
Qed.

Lemma is_ok_parse ev : is_ok (parse_event ev) = is_ok (parse_window ev).
Proof.
  unfold parse_event, parse_window.
  destruct (fromisoformat parse_zoned (or_ (tf_dateTime (ev_start ev)) _)); simpl;
    [|reflexivity].
  destruct (fromisoformat parse_zoned (or_ (tf_dateTime (ev_end ev)) _)); reflexivity.
Qed.

(** An event whose two strings parse. *)
Definition parses (ev : event) : bool := is_ok (parse_window ev).

(** Among events that all supply their two strings, those whose strings do
    not parse are dropped by the free-slot finder: the slots are those found
    when the provider lists the parsing events alone. *)
Lemma finder_drops_unparsable date duration_minutes earliest_hour latest_hour calendar_id
      w events w1 v v1 :
  Forall dated events ->
  get_events date date calendar_id 50 w = (Ok events, w1) ->
  get_events date date calendar_id 50 v = (Ok (filter parses events), v1) ->
  fst (find_free_slots date duration_minutes earliest_hour latest_hour calendar_id w)
  = fst (find_free_slots date duration_minutes earliest_hour latest_hour calendar_id v)
  /\ exists busy, build_busy events [] = Ok busy.
Proof.
  intros Hdated Hw Hv.
  assert (Hpass : Forall (passable parse_window) events).
  { eapply Forall_impl; [|exact Hdated]. apply dated_passable_window. }
  rewrite !FreeSlotFacts.find_free_slots_run, Hw, Hv.
  rewrite !build_busy_collect. unfold parses.
  rewrite <- (collect_drops parse_window events [] Hpass).
  rewrite (collect_passable parse_window events [] Hpass).
  split; [|eauto].
  destruct (fromisoformat parse_wall (Some date)); [|reflexivity].
  destruct (replace_hour a earliest_hour); [|reflexivity].
  destruct (replace_hour a latest_hour); reflexivity.
Qed.

(** The same for the conflict detector. *)
Lemma detector_drops_unparsable params w events w1 v v1 :
  Forall dated events ->
  get_events (start_date params) (end_date params) (conflicts_calendar_id params) 50 w
  = (Ok events, w1) ->
  get_events (start_date params) (end_date params) (conflicts_calendar_id params) 50 v
  = (Ok (filter parses events), v1) ->
  fst (schedule_find_conflicts params w) = fst (schedule_find_conflicts params v)
  /\ exists payload, fst (schedule_find_conflicts params w) = Json payload.
Proof.
  intros Hdated Hw Hv.
  assert (Hpass : Forall (passable parse_event) events).
  { eapply Forall_impl; [|exact Hdated]. apply dated_passable_event. }
  rewrite !ConflictFacts.schedule_find_conflicts_run, Hw, Hv.
  rewrite !build_parsed_collect.
  assert (Hfilter : filter parses events
                    = filter (fun ev => is_ok (parse_event ev)) events).
  { apply filter_ext. intros ev. unfold parses. now rewrite is_ok_parse. }
  rewrite Hfilter, <- (collect_drops parse_event events [] Hpass).
  rewrite (collect_passable parse_event events [] Hpass). simpl. eauto.
Qed.

(** An event without a start string ends either loop with an exception. *)
Lemma undated_not_passable ev :
  start_str ev = None -> ~ passable parse_window ev /\ ~ passable parse_event ev.
Proof.
  unfold start_str, passable, parse_window, parse_event. intros ->. simpl. tauto.
Qed.

End Batches.

(** ** Worked batches *)

Import Iso.

Definition standup : event :=
  timed "a" "Standup" "2026-02-17T09:00:00-08:00" "2026-02-17T10:00:00-08:00".

Definition review : event :=
  timed "b" "Review" "2026-02-17T13:00:00-08:00" "2026-02-17T14:00:00-08:00".

(** A start that is no date. *)
Definition garbled : event :=
  timed "g" "Garbled" "next tuesday" "2026-02-17T12:00:00-08:00".

(** A start whose [dateTime] is the empty string, with no [date]. *)
Definition blank : event :=
  timed "x" "Blank" "" "2026-02-17T12:00:00-08:00".

Definition sixty_minutes : FindFreeSlotsInput :=
  {| date := "2026-02-17"; duration_minutes := 60; earliest_hour := 8;
     latest_hour := 20; calendar_id := "primary" |}.

Definition that_day : FindConflictsInput :=
  {| start_date := "2026-02-17"; end_date := "2026-02-17";
     conflicts_calendar_id := "primary" |}.

Definition day_of (events : list event) : world := world_of events [] "2026-02-17" [].

(** A string that does not parse costs the batch nothing. *)
Example garbled_is_dropped :
  fst (gcal_find_free_slots sixty_minutes (day_of [standup; garbled; review]))
  = fst (gcal_find_free_slots sixty_minutes (day_of [standup; review]))
  /\ fst (schedule_find_conflicts that_day (day_of [standup; garbled; review]))
     = fst (schedule_find_conflicts that_day (day_of [standup; review])).
Proof. split; vm_compute; reflexivity. Qed.

(** C7 at a batch with one event whose start is blank: [start_str] is
    [None], [fromisoformat] raises [TypeError], which the loop does not
    catch, and both operations end with an error message instead of the
    result over [standup] and [review]. *)
Theorem blank_start_aborts_the_batch :
  fst (gcal_find_free_slots sixty_minutes (day_of [standup; blank; review]))
  = Text "Error finding free slots: fromisoformat: argument must be str"
  /\ fst (schedule_find_conflicts that_day (day_of [standup; blank; review]))
     = Text "Error checking for conflicts: fromisoformat: argument must be str"
  /\ fst (gcal_find_free_slots sixty_minutes (day_of [standup; review]))
     = Json {| fs_message := None;
               fs_slots := [FreeSlotFacts.slot_at (instant "2026-02-17T08:00:00") (minutes 60);
                            FreeSlotFacts.slot_at (instant "2026-02-17T10:00:00") (minutes 60);
                            FreeSlotFacts.slot_at (instant "2026-02-17T14:00:00") (minutes 60)];
               fs_count := Some 3 |}
  /\ fst (schedule_find_conflicts that_day (day_of [standup; review]))
     = Json {| date_range := ("2026-02-17", "2026-02-17");
               cp_overlaps := []; cp_tight_transitions := []; cp_long_events := [];
               all_clear := true |}.
Proof. repeat split; vm_compute; reflexivity. Qed.

End MalformedFacts.

(* ====================================================================== *)
(** * The overdue reconciler *)
(* ====================================================================== *)

Module OverdueFacts.
Import Py Provider Notion.
Import stdpp.base stdpp.gmap stdpp.strings stdpp.list.
#[local] Set Warnings "-clear-no-such-hyp".
#[local] Open Scope Z_scope.

Definition ids (tasks : list task) : list string := map notion_id tasks.

(** The tasks the loop keeps. *)
Definition kept (tasks : list task) (seen : gset string) : list task :=
  dedup tasks seen [].

Lemma dedup_acc tasks : forall seen combined,
  dedup tasks seen combined = combined ++ kept tasks seen.
Proof.
  unfold kept. induction tasks as [|t rest IH]; intros seen combined; simpl.
  - by rewrite app_nil_r.
  - case_bool_decide; [apply IH|].
    rewrite (IH _ (combined ++ [t])), (IH _ [t]). by rewrite <- app_assoc.
Qed.

Lemma kept_seen t rest seen :
  notion_id t ∈ seen -> kept (t :: rest) seen = kept rest seen.
Proof. intros Hin. unfold kept; simpl. by rewrite bool_decide_eq_true_2. Qed.

Lemma kept_new t rest seen :
  notion_id t ∉ seen ->
  kept (t :: rest) seen = t :: kept rest (seen ∪ {[notion_id t]}).
Proof.
  intros Hnew. unfold kept at 1; simpl. rewrite bool_decide_eq_false_2 by done.
  by rewrite dedup_acc.
Qed.

(** The loop keeps tasks in the order it meets them. *)
Lemma kept_sublist tasks : forall seen, kept tasks seen `sublist_of` tasks.
Proof.
  induction tasks as [|t rest IH]; intros seen; [constructor|].
  destruct (decide (notion_id t ∈ seen)).
  - rewrite kept_seen by done. by apply sublist_cons.
  - rewrite kept_new by done. by apply sublist_skip.
Qed.

(** An id is kept exactly when a task carries it and it was not seen. *)
Lemma kept_ids tasks : forall seen id,
  id ∈ ids (kept tasks seen) <-> id ∈ ids tasks /\ id ∉ seen.
Proof.
  unfold ids. induction tasks as [|t rest IH]; intros seen id.
  - simpl. set_solver.
  - destruct (decide (notion_id t ∈ seen)).
    + rewrite kept_seen by done. rewrite IH. simpl. set_solver.
    + rewrite kept_new by done. simpl. rewrite !elem_of_cons, IH.
      destruct (decide (id = notion_id t)); set_solver.
Qed.

(** No id is kept twice. *)
Lemma kept_NoDup tasks : forall seen, NoDup (ids (kept tasks seen)).
Proof.
  unfold ids. induction tasks as [|t rest IH]; intros seen; [constructor|].
  destruct (decide (notion_id t ∈ seen)).
  - rewrite kept_seen by done. apply IH.
  - rewrite kept_new by done. simpl. constructor; [|apply IH].
    intros Hin. apply (kept_ids rest) in Hin. set_solver.
Qed.

(** The first task of an id is the one kept. *)
Lemma kept_first tasks : forall seen t,
  t ∈ kept tasks seen ->
  exists before after,
    tasks = before ++ (t :: after) /\ (notion_id t ∉ ids before) /\ (notion_id t ∉ seen).
Proof.
  induction tasks as [|t0 rest IH]; intros seen t Hin; [by apply elem_of_nil in Hin|].
  destruct (decide (notion_id t0 ∈ seen)) as [Hseen|Hnew].
  - rewrite kept_seen in Hin by done.
    destruct (IH _ _ Hin) as (before & after & -> & Hb & Hs).
    exists (t0 :: before), after. split; [done|]. split; [|done].
    unfold ids; simpl. rewrite not_elem_of_cons. split; [|done]. congruence.
  - rewrite kept_new in Hin by done. apply elem_of_cons in Hin as [->|Hin].
    + exists [], rest. split; [done|]. split; [|done]. unfold ids; simpl. apply not_elem_of_nil.
    + destruct (IH _ _ Hin) as (before & after & -> & Hb & Hs).
      exists (t0 :: before), after. split; [done|]. split; [|set_solver].
      unfold ids; simpl. rewrite not_elem_of_cons. split; [set_solver|done].
Qed.


(** A list without repeated ids, none of them seen, is kept whole. *)
Lemma kept_all tasks : forall seen,
  NoDup (ids tasks) -> (forall id, id ∈ ids tasks -> id ∉ seen) -> kept tasks seen = tasks.
Proof.
  unfold ids. induction tasks as [|t rest IH]; intros seen Hnd Hnew; [done|].
  simpl in Hnd. apply NoDup_cons in Hnd as [Ht Hrest].
  rewrite kept_new by (apply Hnew; simpl; set_solver).
  f_equal. apply IH; [done|]. intros id Hid. specialize (Hnew id). simpl in Hnew. set_solver.
Qed.


(** ** ISO dates compare as strings the way they compare as dates *)

Definition digit_char (n : Z) : ascii := ascii_of_N (Z.to_N (48 + n)).

Definition two_digits (n : Z) (rest : string) : string :=
  String (digit_char (n / 10)) (String (digit_char (n mod 10)) rest).

Definition four_digits (n : Z) (rest : string) : string :=
  two_digits (n / 100) (two_digits (n mod 100) rest).

(** [YYYY-MM-DD] followed by [rest]: a date's [isoformat()] when [rest] is
    empty, the start of a datetime's otherwise. *)
Definition iso_date (y m d : Z) (rest : string) : string :=
  four_digits y (String "-" (two_digits m (String "-" (two_digits d rest)))).

(** The order of the calendar. *)
Definition date_lt (a b : Z * Z * Z) : Prop :=
  let '(y1, m1, d1) := a in
  let '(y2, m2, d2) := b in
  y1 < y2 \/ (y1 = y2 /\ (m1 < m2 \/ (m1 = m2 /\ d1 < d2))).

Lemma digit_compare a b :
  0 <= a <= 9 -> 0 <= b <= 9 ->
  Ascii.compare (digit_char a) (digit_char b) = Z.compare a b.
Proof.
  intros Ha Hb.
  assert (Hda : a = 0 \/ a = 1 \/ a = 2 \/ a = 3 \/ a = 4 \/ a = 5 \/ a = 6 \/ a = 7
                \/ a = 8 \/ a = 9) by lia.
  assert (Hdb : b = 0 \/ b = 1 \/ b = 2 \/ b = 3 \/ b = 4 \/ b = 5 \/ b = 6 \/ b = 7
                \/ b = 8 \/ b = 9) by lia.
  repeat (destruct Hda as [->|Hda]); try subst a;
    repeat (destruct Hdb as [->|Hdb]); try subst b; reflexivity.
Qed.

Lemma two_digits_compare n1 n2 r1 r2 :
  0 <= n1 <= 99 -> 0 <= n2 <= 99 ->
  String.compare (two_digits n1 r1) (two_digits n2 r2) =
  match Z.compare n1 n2 with
  | Eq => String.compare r1 r2
  | c => c
  end.
Proof.
  intros H1 H2. unfold two_digits. cbn [String.compare].
  pose proof (Z.div_mod n1 10 ltac:(lia)). pose proof (Z.div_mod n2 10 ltac:(lia)).
  pose proof (Z.mod_pos_bound n1 10 ltac:(lia)).
  pose proof (Z.mod_pos_bound n2 10 ltac:(lia)).
  rewrite !digit_compare by lia.
  destruct (Z.compare_spec (n1 / 10) (n2 / 10)) as [Hq|Hq|Hq];
    destruct (Z.compare_spec (n1 mod 10) (n2 mod 10)) as [Hr|Hr|Hr];
    destruct (Z.compare_spec n1 n2) as [Hn|Hn|Hn]; try reflexivity; exfalso; lia.
Qed.

Lemma four_digits_compare n1 n2 r1 r2 :
  0 <= n1 <= 9999 -> 0 <= n2 <= 9999 ->
  String.compare (four_digits n1 r1) (four_digits n2 r2) =
  match Z.compare n1 n2 with
  | Eq => String.compare r1 r2
  | c => c
  end.
Proof.
  intros H1 H2. unfold four_digits.
  pose proof (Z.div_mod n1 100 ltac:(lia)). pose proof (Z.div_mod n2 100 ltac:(lia)).
  pose proof (Z.mod_pos_bound n1 100 ltac:(lia)).
  pose proof (Z.mod_pos_bound n2 100 ltac:(lia)).
  rewrite !two_digits_compare by lia.
  destruct (Z.compare_spec (n1 / 100) (n2 / 100)) as [Hq|Hq|Hq];
    destruct (Z.compare_spec (n1 mod 100) (n2 mod 100)) as [Hr|Hr|Hr];
    destruct (Z.compare_spec n1 n2) as [Hn|Hn|Hn]; try reflexivity; exfalso; lia.
Qed.

Lemma compare_same_head c r1 r2 :
  String.compare (String c r1) (String c r2) = String.compare r1 r2.
Proof.
  cbn [String.compare].
  pose proof (proj2 (OrderedTypeEx.Ascii_as_OT.cmp_eq c c) eq_refl) as Hc.
  unfold OrderedTypeEx.Ascii_as_OT.cmp in Hc. now rewrite Hc.
Qed.

(** A due date, with or without a time after it, is below today's date as
    a string exactly when it is an earlier day. *)
Lemma iso_date_ltb y1 m1 d1 rest y2 m2 d2 :
  0 <= y1 <= 9999 -> 0 <= m1 <= 99 -> 0 <= d1 <= 99 ->
  0 <= y2 <= 9999 -> 0 <= m2 <= 99 -> 0 <= d2 <= 99 ->
  String.ltb (iso_date y1 m1 d1 rest) (iso_date y2 m2 d2 "") = true
  <-> date_lt (y1, m1, d1) (y2, m2, d2).
Proof.
  intros Hy1 Hm1 Hd1 Hy2 Hm2 Hd2. unfold String.ltb, iso_date, date_lt.
  rewrite four_digits_compare by assumption.
  destruct (Z.compare_spec y1 y2) as [Hy|Hy|Hy];
    [|split; [lia | reflexivity] | split; [discriminate | lia]].
  rewrite compare_same_head, two_digits_compare by assumption.
  destruct (Z.compare_spec m1 m2) as [Hm|Hm|Hm];
    [|split; [lia | reflexivity] | split; [discriminate | lia]].
  rewrite compare_same_head, two_digits_compare by assumption.
  destruct (Z.compare_spec d1 d2) as [Hd|Hd|Hd];
    [|split; [lia | reflexivity] | split; [discriminate | lia]].
  destruct rest; cbn [String.compare]; split; try discriminate; lia.
Qed.

(** Set (b) of the reconciler: due strictly before today, by the order of
    the ISO strings, and neither done, archived nor marked overdue. *)
Definition overdue_by_date (today : string) (t : task) : Prop :=
  (exists d, due_date t = Some d /\ d <> "" /\ String.ltb d today = true)
  /\ status t <> Some "Done" /\ status t <> Some "Archived" /\ status t <> Some "Overdue".

Lemma status_open_iff t :
  status_open t = true <->
  status t <> Some "Done" /\ status t <> Some "Archived" /\ status t <> Some "Overdue".
Proof.
  unfold status_open. destruct (status t) as [s|].
  - rewrite negb_true_iff, !orb_false_iff, !String.eqb_neq. split.
    + intros [[H1 H2] H3]. repeat split; congruence.
    + intros (H1 & H2 & H3). repeat split; congruence.
  - split; [repeat split; discriminate | reflexivity].
Qed.

Lemma due_before_today_iff today t :
  due_before_today today t = true <->
  exists d, due_date t = Some d /\ d <> "" /\ String.ltb d today = true.
Proof.
  unfold due_before_today. destruct (due_date t) as [d|].
  - rewrite andb_true_iff, negb_true_iff, String.eqb_neq. split.
    + intros [Hd Hlt]. exists d. auto.
    + intros (d' & [= <-] & Hd & Hlt). auto.
  - split; [discriminate|]. intros (d & [=] & _).
Qed.

Lemma past_due_iff today t : past_due today t = true <-> overdue_by_date today t.
Proof.
  unfold past_due, overdue_by_date.
  rewrite andb_true_iff, status_open_iff, due_before_today_iff. tauto.
Qed.

Example iso_date_renders :
  iso_date 2026 2 16 "" = "2026-02-16"
  /\ iso_date 2026 2 16 "T23:00:00.000-08:00" = "2026-02-16T23:00:00.000-08:00".
Proof. split; reflexivity. Qed.

(** The date test of the reconciler holds exactly for the tasks due on an
    earlier day than today. *)
Lemma due_before_today_dates t y m d rest y0 m0 d0 :
  due_date t = Some (iso_date y m d rest) ->
  0 <= y <= 9999 -> 0 <= m <= 99 -> 0 <= d <= 99 ->
  0 <= y0 <= 9999 -> 0 <= m0 <= 99 -> 0 <= d0 <= 99 ->
  due_before_today (iso_date y0 m0 d0 "") t = true <-> date_lt (y, m, d) (y0, m0, d0).
Proof.
  intros Hdue Hy Hm Hd Hy0 Hm0 Hd0. unfold due_before_today. rewrite Hdue.
  rewrite <- (iso_date_ltb y m d rest y0 m0 d0) by assumption.
  unfold iso_date at 1, four_digits at 1, two_digits at 1. cbn [String.eqb negb andb].
  reflexivity.
Qed.

Section Reconciler.
Context `{ext : Externals}.

(** The two lists the reconciler joins. *)
Definition by_status (w : world) : list task :=
  matching (tasks_db w) (Some "Overdue") None None.

Definition by_date (w : world) : list task :=
  List.filter (past_due (today w))
              (matching (tasks_db w) None (filter_arg (Some (today w))) None).

Lemma get_overdue_tasks_inv w result w' :
  get_overdue_tasks w = (Ok result, w') ->
  result = kept (by_status w ++ by_date w) ∅.
Proof.
  unfold get_overdue_tasks, get_tasks, bindM, now_today, call, ret, by_status, by_date, kept.
  destruct (faults w) as [|[e|] [|[e'|] fs]]; simpl; intros [= <- _]; reflexivity || discriminate.
Qed.

(** When neither query fails the reconciler returns. *)
Lemma get_overdue_tasks_returns w fs :
  faults w = None :: None :: fs ->
  exists w', get_overdue_tasks w = (Ok (kept (by_status w ++ by_date w) ∅), w').
Proof.
  intros Hf.
  unfold get_overdue_tasks, get_tasks, bindM, now_today, call, ret, by_status, by_date, kept.
  rewrite Hf; simpl. eexists; reflexivity.
Qed.


End Reconciler.

(** ** A worked backlog *)

Import Iso.




Definition overdue_future : task :=
  {| notion_id := "t1"; url := "https://notion.so/t1"; name := "Renew passport";
     status := Some "Overdue"; due_date := Some "2026-12-01" |}.

Definition late_not_started : task :=
  {| notion_id := "t2"; url := "https://notion.so/t2"; name := "File expenses";
     status := Some "Not started"; due_date := Some "2026-02-16" |}.

Definition late_done : task :=
  {| notion_id := "t3"; url := "https://notion.so/t3"; name := "Book venue";
     status := Some "Done"; due_date := Some "2026-01-01" |}.

Definition undated : task :=
  {| notion_id := "t4"; url := "https://notion.so/t4"; name := "Read paper";
     status := Some "In progress"; due_date := None |}.

Definition overdue_past : task :=
  {| notion_id := "t5"; url := "https://notion.so/t5"; name := "Send invoice";
     status := Some "Overdue"; due_date := Some "2026-02-01" |}.

Definition due_today : task :=
  {| notion_id := "t6"; url := "https://notion.so/t6"; name := "Call bank";
     status := Some "Not started"; due_date := Some "2026-02-17" |}.

Definition backlog : world :=
  world_of []
           [late_done; overdue_past; late_not_started; due_today; undated; overdue_future]
           "2026-02-17" [].

(** The task marked overdue with a future date, the one not started and due
    yesterday, and the one that both queries return appear once each; the
    task due today does not appear. *)
Example overdue_in_backlog :
  fst (get_overdue_tasks backlog) = Ok [overdue_past; overdue_future; late_not_started].
Proof. vm_compute; reflexivity. Qed.


End OverdueFacts.

(* ====================================================================== *)
(** * The tool boundary *)
(* ====================================================================== *)

Module BoundaryFacts.
Import Py Provider GCal Notion CalendarTools TaskTools ScheduleTools.


(** The conditions [FindFreeSlotsInput] puts on the arguments. *)
Definition acceptable (a : arguments) : Prop :=
  args_extra a = []
  /\ args_date a <> None
  /\ (exists d, args_duration_minutes a = Some d /\ 15 <= d <= 480)
  /\ (forall h, args_earliest_hour a = Some h -> 0 <= h <= 23)
  /\ (forall h, args_latest_hour a = Some h -> 1 <= h <= 24).

Lemma bounded_some ge le a n :
  bounded ge le a = Some n <-> a = Some n /\ ge <= n <= le.
Proof.
  unfold bounded. destruct a as [m|]; [|split; [discriminate | intros [[=] _]]].
  destruct (Z.leb_spec ge m), (Z.leb_spec m le); simpl; split;
    try discriminate; try (intros [= <-]; split; [reflexivity | lia]);
    intros [[= ->] Hb]; try reflexivity; lia.
Qed.

Lemma validate_acceptable a : (exists params, validate a = Some params) <-> acceptable a.
Proof.
  unfold validate, acceptable, required, default.
  destruct (args_extra a); [|split; [intros [? [=]] | intros [[=] _]]].
  destruct (args_date a) as [d|];
    [|split; [intros [? [=]] | intros (_ & Hd & _); now elim Hd]].
  split.
  - intros [params Hv].
    destruct (bounded 15 480 (args_duration_minutes a)) as [dm|] eqn:Hdm; [|discriminate].
    apply bounded_some in Hdm as [Hdm Hdmb].
    destruct (bounded 0 23 _) as [eh|] eqn:Heh; [|discriminate].
    apply bounded_some in Heh as [Heh Hehb].
    destruct (bounded 1 24 _) as [lh|] eqn:Hlh; [|discriminate].
    apply bounded_some in Hlh as [Hlh Hlhb].
    split; [reflexivity|]. split; [discriminate|]. split; [exists dm; auto|]. split.
    + intros h0 Hh. rewrite Hh in Heh. injection Heh as <-. exact Hehb.
    + intros h0 Hh. rewrite Hh in Hlh. injection Hlh as <-. exact Hlhb.
  - intros (_ & _ & (dm & Hdm & Hdmb) & Heh & Hlh).
    rewrite Hdm. rewrite (proj2 (bounded_some 15 480 (Some dm) dm)) by auto.
    assert (He : exists eh, bounded 0 23 match args_earliest_hour a with
                                        | Some h => Some h | None => Some 8 end = Some eh).
    { destruct (args_earliest_hour a) as [h|].
      - exists h. apply bounded_some. split; [reflexivity | now apply Heh].
      - exists 8. reflexivity. }
    assert (Hl : exists lh, bounded 1 24 match args_latest_hour a with
                                        | Some h => Some h | None => Some 20 end = Some lh).
    { destruct (args_latest_hour a) as [h|].
      - exists h. apply bounded_some. split; [reflexivity | now apply Hlh].
      - exists 20. reflexivity. }
    destruct He as [eh ->], Hl as [lh ->].
    destruct (args_calendar_id a); eauto.
Qed.

Section Boundary.
Context `{ext : Externals}.

(** ** Provider failures *)

Lemma get_events_failure start_date end_date calendar_id max_results w e fs :
  parse_wall start_date <> None -> parse_wall end_date <> None ->
  faults w = Some e :: fs ->
  fst (get_events start_date end_date calendar_id max_results w) = Raise e.
Proof.
  intros Hs He Hf. unfold get_events, bindM, lift, call, fromisoformat.
  destruct (parse_wall start_date); [|tauto].
  destruct (parse_wall end_date); [|tauto].
  now rewrite Hf.
Qed.

(** Whatever the failure of the provider call, [gcal_get_events] returns
    its own prefix followed by the text of the exception. *)
Lemma gcal_get_events_failure start_date end_date calendar_id max_results w e fs :
  parse_wall start_date <> None -> parse_wall end_date <> None ->
  faults w = Some e :: fs ->
  fst (gcal_get_events start_date end_date calendar_id max_results w)
  = Text ("Error fetching events: " ++ str e)%string.
Proof.
  intros Hs He Hf.
  pose proof (get_events_failure start_date end_date calendar_id max_results w e fs Hs He Hf)
    as Hfail.
  unfold gcal_get_events, try_except, bindM.
  destruct (get_events start_date end_date calendar_id max_results w) as [r w'].
  simpl in Hfail. now subst r.
Qed.

Lemma notion_get_overdue_tasks_failure w e fs :
  faults w = Some e :: fs ->
  fst (notion_get_overdue_tasks w) = Text ("Error fetching overdue tasks: " ++ str e)%string.
Proof.
  intros Hf.
  unfold notion_get_overdue_tasks, try_except, get_overdue_tasks, get_tasks, bindM,
    now_today, call.
  now rewrite Hf.
Qed.

(** ** schedule_task_block *)


(** ** gcal_find_free_slots *)

(** C10, as amended: the arguments are accepted exactly when no undeclared
    key is present, the date is given, the duration is given and lies
    between 15 and 480 minutes, and the hours, when given, lie in 0..23 and
    1..24; arguments that are not accepted are rejected with the world
    untouched, so before any provider call. *)
Theorem find_free_slots_input_gate a w :
  ((exists params, validate a = Some params) <-> acceptable a)
  /\ (validate a = None -> invoke_gcal_find_free_slots a w = (Rejected, w))
  /\ (forall params, validate a = Some params ->
       invoke_gcal_find_free_slots a w
       = (Returned (fst (gcal_find_free_slots params w)),
          snd (gcal_find_free_slots params w))).
Proof.
  split; [apply validate_acceptable|]. unfold invoke_gcal_find_free_slots. split.
  - now intros ->.
  - intros params ->. now destruct (gcal_find_free_slots params w).
Qed.

End Boundary.

(** ** Worked invocations *)

Import Iso.

Definition not_found : http_error :=
  {| resp_status := 404;
     http_str := "<HttpError 404 when requesting https://www.googleapis.com/calendar/v3/calendars/team/events?alt=json returned Not Found>" |}.


Definition rate_limited : api_response_error :=
  {| code := "rate_limited"; message := "You have been rate limited." |}.

Definition failing (e : exn) : world := world_of [] [] "2026-02-17" [Some e].

(** C8 at a calendar the provider does not know and at a rate-limited
    Tasks query: each tool returns its own prefix followed by the text of
    the exception, not the message the handler of that failure class
    gives. *)
Theorem provider_failure_text_untranslated :
  fst (gcal_get_events "2026-02-17" "2026-02-17" "team" 50 (failing (HttpError not_found)))
  = Text ("Error fetching events: " ++ http_str not_found)%string
  /\ _handle_http_error not_found = "Error: Calendar event not found. Check the event ID."
  /\ fst (notion_get_overdue_tasks (failing (APIResponseError rate_limited)))
     = Text "Error fetching overdue tasks: You have been rate limited."
  /\ _handle_notion_error rate_limited
     = "Error: Notion rate limit hit. Wait a moment and retry.".
Proof. repeat split; vm_compute; reflexivity. Qed.





(** A day with one meeting. *)
Definition one_meeting : world :=
  world_of [timed "m" "Meeting" "2026-02-17T11:00:00-08:00" "2026-02-17T12:00:00-08:00"]
           [] "2026-02-17" [].

Definition ten_minutes : arguments :=
  {| args_date := Some "2026-02-17"; args_duration_minutes := Some 10;
     args_earliest_hour := None; args_latest_hour := None;
     args_calendar_id := None; args_extra := [] |}.

(** C10 as stated fails: a duration of ten minutes is rejected. *)
Lemma ten_minutes_rejected :
  args_duration_minutes ten_minutes = Some 10 /\ 1 <= 10
  /\ validate ten_minutes = None
  /\ fst (invoke_gcal_find_free_slots ten_minutes one_meeting) = Rejected.
Proof. repeat split; try reflexivity. lia. Qed.

Lemma ten_minutes_gate :
  validate ten_minutes = None
  /\ invoke_gcal_find_free_slots ten_minutes one_meeting = (Rejected, one_meeting).
Proof.
  split; [reflexivity|].
  apply (find_free_slots_input_gate ten_minutes one_meeting). reflexivity.
Defined.

(** An hour of 24 passes the input model and stops the client at
    [replace(hour=24)], again before any provider call. *)
Example latest_hour_24 :
  let a := {| args_date := Some "2026-02-17"; args_duration_minutes := Some 60;
              args_earliest_hour := Some 8; args_latest_hour := Some 24;
              args_calendar_id := None; args_extra := [] |} in
  fst (invoke_gcal_find_free_slots a one_meeting)
  = Returned (Text "Error finding free slots: hour must be in 0..23")
  /\ journal (snd (invoke_gcal_find_free_slots a one_meeting)) = [].
Proof. split; vm_compute; reflexivity. Qed.

End BoundaryFacts.

(* ====================================================================== *)
(** * More on the free-slot finder *)
(* ====================================================================== *)

Module FreeSlotExtras.
Import Py Provider GCal CalendarTools FreeSlotFacts MalformedFacts.


Section Walk.
Variable d : timedelta.

Lemma emit_length c w : (List.length (emit d c w) <= 1)%nat.
Proof. unfold emit. destruct (_ <=? _); simpl; auto. Qed.

(** At most one slot per window. *)
Lemma emitted_length busy : forall c,
  (List.length (emitted d busy c) <= List.length busy)%nat.
Proof.
  induction busy as [|w rest IH]; intros c; [apply Nat.le_refl|].
  rewrite emitted_cons, length_app. simpl.
  pose proof (emit_length c w). pose proof (IH (advance c w)). lia.
Qed.

Lemma advance_cases c w : advance c w = c \/ advance c w = snd w.
Proof. unfold advance. destruct (_ >? _); auto. Qed.

(** The cursor only ever stands at its first position or at the end of a
    window, so that is where slots start. *)
Lemma emitted_origin busy : forall c,
  Forall (fun s => slot_start s = c \/ exists w, In w busy /\ slot_start s = snd w)
         (emitted d busy c)
  /\ (final d busy c = c \/ exists w, In w busy /\ final d busy c = snd w).
Proof.
  induction busy as [|w rest IH]; intros c.
  - split; [constructor | left; reflexivity].
  - rewrite emitted_cons, final_cons.
    destruct (IH (advance c w)) as [IHs IHf]. split.
    + apply Forall_app. split.
      * apply Forall_forall. intros s Hs. apply emit_shape in Hs as [-> _]. now left.
      * eapply Forall_impl; [|exact IHs]. cbv beta. intros s [Hs|(w' & Hin & Hs)].
        -- destruct (advance_cases c w) as [Ha|Ha]; rewrite Ha in Hs; [now left|].
           right. exists w. split; [now left | exact Hs].
        -- right. exists w'. split; [now right | exact Hs].
    + destruct IHf as [Hf|(w' & Hin & Hf)].
      * destruct (advance_cases c w) as [Ha|Ha]; [left; now rewrite Hf|].
        right. exists w. split; [now left | now rewrite Hf].
      * right. exists w'. split; [now right | exact Hf].
Qed.


End Walk.

(** ** A day *)

Lemma sort_length busy : List.length (WindowSort.sort busy) = List.length busy.
Proof. symmetry. apply Permutation_length, WindowSort.Permuted_sort. Qed.

Lemma last_slot_length d c day_end : (List.length (last_slot d c day_end) <= 1)%nat.
Proof. unfold last_slot. destruct (_ <=? _); simpl; auto. Qed.

Lemma slots_of_busy_length day_start day_end duration_minutes busy :
  (List.length (slots_of_busy day_start day_end duration_minutes busy)
   <= List.length busy + 1)%nat.
Proof.
  rewrite slots_of_busy_eq. cbv zeta. rewrite length_app.
  pose proof (emitted_length (minutes duration_minutes) (WindowSort.sort busy) day_start).
  pose proof (last_slot_length (minutes duration_minutes)
                (final (minutes duration_minutes) (WindowSort.sort busy) day_start) day_end).
  rewrite sort_length in *. lia.
Qed.

Lemma slots_of_busy_origin day_start day_end duration_minutes busy :
  Forall (fun s => slot_start s = day_start
                   \/ exists w, In w busy /\ slot_start s = snd w)
         (slots_of_busy day_start day_end duration_minutes busy).
Proof.
  rewrite slots_of_busy_eq. cbv zeta.
  destruct (emitted_origin (minutes duration_minutes) (WindowSort.sort busy) day_start)
    as [Hs Hf].
  assert (Hin : forall w, In w (WindowSort.sort busy) -> In w busy)
    by (intros w; apply sort_in).
  apply Forall_app. split.
  - eapply Forall_impl; [|exact Hs]. cbv beta. intros s [Hd|(w & Hw & Hd)]; [now left|].
    right. exists w. auto.
  - apply Forall_forall. intros s Hl. apply last_slot_shape in Hl as [-> _]. simpl.
    destruct Hf as [Hf|(w & Hw & Hf)]; [now left|]. right. exists w. auto.
Qed.




(** ** The parsing loop *)

Section Loop.
Context {A : Type} (item : event -> result A).

Lemma collect_length events : forall acc out,
  collect item events acc = Ok out ->
  (List.length out <= List.length acc + List.length events)%nat.
Proof.
  induction events as [|ev rest IH]; intros acc out; simpl.
  - intros [= <-]. lia.
  - destruct (item ev) as [a|[]]; try discriminate; intros Hc; apply IH in Hc;
      rewrite ?length_app in Hc; simpl in Hc; lia.
Qed.




End Loop.

(** ** The client function and the tool *)

Section Finder.
Context `{ext : Externals}.


Lemma build_busy_length events busy :
  build_busy events [] = Ok busy -> (List.length busy <= List.length events)%nat.
Proof. rewrite build_busy_collect. intros Hc. now apply collect_length in Hc. Qed.




(** X2: there is at most one slot more than there are events listed. *)
Theorem free_slots_count
        date duration_minutes earliest_hour latest_hour calendar_id
        w events w1 slots w2 :
  get_events date date calendar_id 50 w = (Ok events, w1) ->
  find_free_slots date duration_minutes earliest_hour latest_hour calendar_id w
  = (Ok slots, w2) ->
  (List.length slots <= List.length events + 1)%nat.
Proof.
  intros Hev Hrun.
  apply find_free_slots_inv in Hrun
    as (d & day_start & day_end & events' & busy & _ & _ & _ & Hev' & Hbusy & ->).
  rewrite Hev in Hev'. injection Hev' as <- _.
  pose proof (slots_of_busy_length day_start day_end duration_minutes busy).
  pose proof (build_busy_length events busy Hbusy). lia.
Qed.

(** X3: every slot starts at [day_start] or where a parsed busy window
    ends. *)
Theorem free_slots_start_points
        date duration_minutes earliest_hour latest_hour calendar_id
        w d day_start events w1 busy slots w2 :
  parse_wall date = Some d ->
  replace_hour d earliest_hour = Ok day_start ->
  get_events date date calendar_id 50 w = (Ok events, w1) ->
  build_busy events [] = Ok busy ->
  find_free_slots date duration_minutes earliest_hour latest_hour calendar_id w
  = (Ok slots, w2) ->
  Forall (fun s => slot_start s = day_start
                   \/ exists b, In b busy /\ slot_start s = snd b) slots.
Proof.
  intros Hd Hs Hev Hbusy Hrun.
  apply find_free_slots_inv in Hrun
    as (d' & day_start' & day_end & events' & busy' & Hd' & Hs' & _ & Hev' & Hbusy' & ->).
  rewrite Hd in Hd'. injection Hd' as <-.
  rewrite Hs in Hs'. injection Hs' as <-.
  rewrite Hev in Hev'. injection Hev' as <- _.
  rewrite Hbusy in Hbusy'. injection Hbusy' as <-.
  apply slots_of_busy_origin.
Qed.

(** X4: on a day without events there is one slot, at [day_start], when the
    duration fits between the two hours, and none otherwise. *)
Theorem free_slots_empty_day
        date duration_minutes earliest_hour latest_hour calendar_id
        w d day_start day_end w1 :
  parse_wall date = Some d ->
  replace_hour d earliest_hour = Ok day_start ->
  replace_hour d latest_hour = Ok day_end ->
  get_events date date calendar_id 50 w = (Ok [], w1) ->
  fst (find_free_slots date duration_minutes earliest_hour latest_hour calendar_id w)
  = Ok (if day_start + minutes duration_minutes <=? day_end
        then [slot_at day_start (minutes duration_minutes)]
        else []).
Proof.
  intros Hd Hs He Hev. rewrite find_free_slots_run. unfold fromisoformat.
  rewrite Hd, Hs, He, Hev. simpl.
  rewrite slots_of_busy_eq. reflexivity.
Qed.



Lemma bindM_run {A B : Type} (c : M A) (k : A -> M B) w :
  bindM c k w = match c w with
                | (Ok a, w') => k a w'
                | (Raise e, w') => (Raise e, w')
                end.
Proof. reflexivity. Qed.

Lemma validate_bounds a params :
  validate a = Some params ->
  15 <= duration_minutes params <= 480
  /\ 0 <= earliest_hour params <= 23
  /\ 1 <= latest_hour params <= 24.
Proof.
  unfold validate, required, default.
  destruct (args_extra a); [|discriminate].
  destruct (args_date a); [|discriminate].
  destruct (bounded 15 480 _) as [dm|] eqn:Hdm; [|discriminate].
  destruct (bounded 0 23 _) as [eh|] eqn:Heh; [|discriminate].
  destruct (bounded 1 24 _) as [lh|] eqn:Hlh; [|discriminate].
  apply BoundaryFacts.bounded_some in Hdm as [_ Hdm], Heh as [_ Heh], Hlh as [_ Hlh].
  destruct (args_calendar_id a); intros [= <-]; simpl; auto.
Qed.

(** X7: the input model accepts [latest_hour = 24], and the client cannot
    build [day_end] from it: with a date that parses the tool answers with
    the error of [replace(hour=24)], before any provider call. *)
Theorem latest_hour_24_is_refused_late a params w :
  validate a = Some params ->
  latest_hour params = 24 ->
  parse_wall (date params) <> None ->
  invoke_gcal_find_free_slots a w
  = (Returned (Text "Error finding free slots: hour must be in 0..23"), w).
Proof.
  intros Hv H24 Hdate. unfold invoke_gcal_find_free_slots. rewrite Hv.
  apply validate_bounds in Hv as (_ & Heh & _).
  unfold gcal_find_free_slots, try_except. rewrite bindM_run.
  rewrite find_free_slots_run. unfold fromisoformat, replace_hour.
  destruct (parse_wall (date params)); [|tauto].
  destruct (Z.leb_spec 0 (earliest_hour params)), (Z.leb_spec (earliest_hour params) 23);
    try lia.
  rewrite H24. reflexivity.
Qed.

End Finder.

(** ** A Thursday with two meetings *)

Import Iso.

Definition thursday : world :=
  world_of [timed "m1" "Planning" "2026-03-05T09:00:00+01:00" "2026-03-05T10:00:00+01:00";
            timed "m2" "Workshop" "2026-03-05T13:00:00+01:00" "2026-03-05T14:30:00+01:00"]
           [] "2026-03-05" [].


Definition thursday_busy : list window :=
  [(instant "2026-03-05T09:00:00", instant "2026-03-05T10:00:00");
   (instant "2026-03-05T13:00:00", instant "2026-03-05T14:30:00")].

Definition thursday_slots : list slot :=
  [slot_at (instant "2026-03-05T08:00:00") (minutes 60);
   slot_at (instant "2026-03-05T10:00:00") (minutes 60);
   slot_at (instant "2026-03-05T14:30:00") (minutes 60)].

Definition free_day : world := world_of [] [] "2026-03-05" [].

Definition until_midnight : arguments :=
  {| args_date := Some "2026-03-05"; args_duration_minutes := Some 60;
     args_earliest_hour := Some 8; args_latest_hour := Some 24;
     args_calendar_id := None; args_extra := [] |}.


Lemma slot_count_on_thursday :
  (List.length thursday_slots <= List.length (calendar thursday) + 1)%nat.
Proof.
  apply (free_slots_count
           "2026-03-05" 60 8 20 "primary"
           thursday (map snd (calendar thursday))
           (snd (get_events "2026-03-05" "2026-03-05" "primary" 50 thursday))
           thursday_slots
           (snd (find_free_slots "2026-03-05" 60 8 20 "primary" thursday)));
    vm_compute; reflexivity.
Defined.

Lemma start_points_on_thursday :
  Forall (fun s => slot_start s = instant "2026-03-05T08:00:00"
                   \/ exists b, In b thursday_busy /\ slot_start s = snd b)
         thursday_slots.
Proof.
  apply (free_slots_start_points
           "2026-03-05" 60 8 20 "primary"
           thursday (instant "2026-03-05T00:00:00") (instant "2026-03-05T08:00:00")
           (map snd (calendar thursday))
           (snd (get_events "2026-03-05" "2026-03-05" "primary" 50 thursday))
           thursday_busy thursday_slots
           (snd (find_free_slots "2026-03-05" 60 8 20 "primary" thursday)));
    vm_compute; reflexivity.
Defined.

Lemma one_slot_on_free_day :
  fst (find_free_slots "2026-03-05" 60 8 20 "primary" free_day)
  = Ok [slot_at (instant "2026-03-05T08:00:00") (minutes 60)].
Proof.
  apply (free_slots_empty_day
           "2026-03-05" 60 8 20 "primary"
           free_day (instant "2026-03-05T00:00:00") (instant "2026-03-05T08:00:00")
           (instant "2026-03-05T20:00:00")
           (snd (get_events "2026-03-05" "2026-03-05" "primary" 50 free_day)));
    vm_compute; reflexivity.
Defined.


Lemma until_midnight_refused :
  invoke_gcal_find_free_slots until_midnight thursday
  = (Returned (Text "Error finding free slots: hour must be in 0..23"), thursday).
Proof.
  apply (latest_hour_24_is_refused_late
           until_midnight
           {| date := "2026-03-05"; duration_minutes := 60; earliest_hour := 8;
              latest_hour := 24; calendar_id := "primary" |}
           thursday);
    [vm_compute; reflexivity | reflexivity | vm_compute; discriminate].
Defined.

End FreeSlotExtras.

(* ====================================================================== *)
(** * More on the conflict detector *)
(* ====================================================================== *)

Module ConflictExtras.
Import Py Provider GCal CalendarTools ScheduleTools ConflictFacts MalformedFacts
       FreeSlotExtras.

(** ** The scan *)

Lemma adjacent_length {A : Type} (l : list A) :
  List.length (adjacent l) = pred (List.length l).
Proof.
  induction l as [|a [|b rest] IH]; [reflexivity | reflexivity|].
  rewrite adjacent_next. cbn [List.length pred] in *. now rewrite IH.
Qed.


(** A pair is counted once: as an overlap or as a tight transition. *)
Lemma overlapping_or_tight pairs :
  (List.length (filter overlapping pairs) + List.length (filter tight pairs)
   <= List.length pairs)%nat.
Proof.
  induction pairs as [|pr rest IH]; [reflexivity|].
  cbn [filter]. unfold tight at 1, overlapping at 1.
  destruct (is_overlap (fst pr) (snd pr)); cbn [negb andb List.length];
    [|destruct (is_tight (fst pr) (snd pr)); cbn [List.length]]; lia.
Qed.

Lemma filter_length_le {A : Type} (f : A -> bool) (l : list A) :
  (List.length (filter f l) <= List.length l)%nat.
Proof.
  induction l as [|a rest IH]; [reflexivity|].
  cbn [filter]. destruct (f a); cbn [List.length]; lia.
Qed.




Lemma sort_parsed_length parsed :
  List.length (ParsedSort.sort parsed) = List.length parsed.
Proof. symmetry. apply Permutation_length, ParsedSort.Permuted_sort. Qed.




Section Detector.
Context `{ext : Externals}.


Lemma build_parsed_length events parsed :
  build_parsed events [] = Ok parsed -> (List.length parsed <= List.length events)%nat.
Proof. rewrite build_parsed_collect. intros Hc. now apply collect_length in Hc. Qed.



(** X9: each pair of neighbours gives at most one report, an overlap or a
    tight transition, so these are fewer than the events; there is at most
    one long-event report per event; and a range with at most one event is
    all clear. *)
Theorem one_report_per_neighbour_pair params w events w1 payload w2 :
  get_events (start_date params) (end_date params)
             (conflicts_calendar_id params) 50 w = (Ok events, w1) ->
  schedule_find_conflicts params w = (Json payload, w2) ->
  (List.length (cp_overlaps payload) + List.length (cp_tight_transitions payload)
   <= pred (List.length events))%nat
  /\ (List.length (cp_long_events payload) <= List.length events)%nat
  /\ ((List.length events <= 1)%nat -> all_clear payload = true).
Proof.
  intros Hev Hrun. rewrite schedule_find_conflicts_run, Hev in Hrun.
  destruct (build_parsed events []) as [parsed|e] eqn:Hparsed; [|discriminate].
  injection Hrun as <- _. apply build_parsed_length in Hparsed.
  unfold conflicts_of.
  cbn [cp_overlaps cp_tight_transitions cp_long_events all_clear].
  rewrite scan_overlaps, scan_tight, scan_long.
  cbn [no_findings overlaps tight_transitions long_events app].
  rewrite !length_map.
  pose proof (overlapping_or_tight (adjacent (ParsedSort.sort parsed))) as Hpairs.
  pose proof (filter_length_le is_long (ParsedSort.sort parsed)) as Hlong.
  rewrite adjacent_length, sort_parsed_length in Hpairs.
  rewrite sort_parsed_length in Hlong.
  split; [lia|]. split; [lia|]. intros Hone.
  assert (Hnone : List.length (filter overlapping (adjacent (ParsedSort.sort parsed))) = 0%nat
                  /\ List.length (filter tight (adjacent (ParsedSort.sort parsed))) = 0%nat)
    by lia.
  destruct Hnone as [Ho Ht]. apply length_zero_iff_nil in Ho, Ht.
  now rewrite Ho, Ht.
Qed.




End Detector.

(** ** A morning with three meetings *)

Import Iso.

Definition on_the_5th : FindConflictsInput :=
  {| start_date := "2026-03-05"; end_date := "2026-03-05";
     conflicts_calendar_id := "primary" |}.

(** The second meeting starts before the first ends and the third starts
    five minutes after the second. *)
Definition crowded_morning : world :=
  world_of [timed "a" "Planning" "2026-03-05T09:00:00+01:00" "2026-03-05T10:30:00+01:00";
            timed "b" "Review" "2026-03-05T10:00:00+01:00" "2026-03-05T11:00:00+01:00";
            timed "c" "Call" "2026-03-05T11:05:00+01:00" "2026-03-05T12:00:00+01:00"]
           [] "2026-03-05" [].



Definition crowded_report : conflicts_payload :=
  {| date_range := ("2026-03-05", "2026-03-05");
     cp_overlaps :=
       [{| ov_event_1 := "Planning"; ov_event_2 := "Review";
           overlap_start := instant "2026-03-05T10:00:00";
           overlap_end := instant "2026-03-05T10:30:00" |}];
     cp_tight_transitions :=
       [{| tt_event_1 := "Review"; event_1_end := instant "2026-03-05T11:00:00";
           tt_event_2 := "Call"; event_2_start := instant "2026-03-05T11:05:00";
           gap_minutes := float_of_int 5 |}];
     cp_long_events := [];
     all_clear := false |}.





Lemma report_count_of_crowded_morning :
  (List.length (cp_overlaps crowded_report)
   + List.length (cp_tight_transitions crowded_report) <= 2)%nat
  /\ (List.length (cp_long_events crowded_report) <= 3)%nat
  /\ ((3 <= 1)%nat -> all_clear crowded_report = true).
Proof.
  apply (one_report_per_neighbour_pair
           on_the_5th crowded_morning (map snd (calendar crowded_morning))
           (snd (get_events "2026-03-05" "2026-03-05" "primary" 50 crowded_morning))
           crowded_report
           (snd (schedule_find_conflicts on_the_5th crowded_morning)));
    vm_compute; reflexivity.
Defined.



End ConflictExtras.

(* ====================================================================== *)
(** * More on the overdue reconciler *)
(* ====================================================================== *)

Module OverdueExtras.
Import Py Provider Notion OverdueFacts.
Import stdpp.base stdpp.gmap stdpp.strings stdpp.list.
#[local] Set Warnings "-clear-no-such-hyp".
#[local] Open Scope Z_scope.

Section Reconciler.
Context `{ext : Externals}.

(** The second query: tasks due on or before today. *)
Definition due_by_today (w : world) : list task :=
  matching (tasks_db w) None (filter_arg (Some (today w))) None.

Lemma by_date_filtered w : by_date w = List.filter (past_due (today w)) (due_by_today w).
Proof. reflexivity. Qed.

(** X13: whatever the provider answers to the two queries, no id occurs
    twice in the result; every returned task comes from the status answer,
    or comes from the date answer and is open and due before today; every
    id of either list is returned; and the task returned for an id is the
    first that carries it, the status answer going first. *)
Theorem overdue_distinct_and_sourced w result w' :
  get_overdue_tasks w = (Ok result, w') ->
  NoDup (ids result)
  /\ (forall t, In t result ->
                In t (by_status w)
                \/ (In t (due_by_today w) /\ overdue_by_date (today w) t))
  /\ (forall t, In t (by_status w) \/ In t (by_date w) -> In (notion_id t) (ids result))
  /\ (forall t, In t result ->
                exists before after,
                  by_status w ++ by_date w = before ++ t :: after
                  /\ ~ In (notion_id t) (ids before)).
Proof.
  intros Hrun. apply get_overdue_tasks_inv in Hrun. subst result.
  split; [apply kept_NoDup|]. split; [|split].
  - intros t Hin. apply list_elem_of_In in Hin.
    pose proof (kept_sublist (by_status w ++ by_date w) ∅) as Hsub.
    eapply elem_of_sublist in Hin; [|exact Hsub].
    apply list_elem_of_In, in_app_iff in Hin as [Hin|Hin]; [now left|].
    right. rewrite by_date_filtered in Hin. apply filter_In in Hin as [Hin Hpast].
    split; [exact Hin | now apply past_due_iff].
  - intros t Hin. apply list_elem_of_In, kept_ids. split; [|apply not_elem_of_empty].
    apply list_elem_of_In. unfold ids. apply in_map, in_app_iff. exact Hin.
  - intros t Hin. apply list_elem_of_In, kept_first in Hin
      as (before & after & Heq & Hfresh & _).
    exists before, after. split; [exact Heq|].
    intros Hb. apply Hfresh. now apply list_elem_of_In.
Qed.

(** X14: with today's date and the due value written as zero-padded ISO
    dates, the due value with or without a time after it, a task passes the
    filter of the date branch exactly when it is due on an earlier day than
    today and is neither done, archived nor marked overdue. *)
Theorem past_due_by_calendar t y m d rest y0 m0 d0 :
  due_date t = Some (iso_date y m d rest) ->
  0 <= y <= 9999 -> 0 <= m <= 99 -> 0 <= d <= 99 ->
  0 <= y0 <= 9999 -> 0 <= m0 <= 99 -> 0 <= d0 <= 99 ->
  past_due (iso_date y0 m0 d0 "") t = true
  <-> date_lt (y, m, d) (y0, m0, d0)
      /\ status t <> Some "Done" /\ status t <> Some "Archived"
      /\ status t <> Some "Overdue".
Proof.
  intros Hdue Hy Hm Hd Hy0 Hm0 Hd0. unfold past_due.
  rewrite andb_true_iff, status_open_iff.
  rewrite (due_before_today_dates t y m d rest y0 m0 d0) by assumption.
  tauto.
Qed.


End Reconciler.

(** ** A collection that repeats an id *)

Import Iso.

Definition marked_overdue : task :=
  {| notion_id := "t1"; url := "https://notion.so/t1"; name := "Renew passport";
     status := Some "Overdue"; due_date := Some "2026-03-01" |}.

(** The same page as the provider showed it before it was marked. *)
Definition stale_copy : task :=
  {| notion_id := "t1"; url := "https://notion.so/t1"; name := "Renew passport";
     status := Some "Not started"; due_date := Some "2026-03-01" |}.

Definition due_yesterday : task :=
  {| notion_id := "t2"; url := "https://notion.so/t2"; name := "File expenses";
     status := Some "In progress"; due_date := Some "2026-03-04T17:00:00.000+01:00" |}.

Definition due_this_evening : task :=
  {| notion_id := "t3"; url := "https://notion.so/t3"; name := "Call bank";
     status := Some "Not started"; due_date := Some "2026-03-05T17:00:00.000+01:00" |}.

Definition repeating : world :=
  world_of [] [stale_copy; due_yesterday; marked_overdue; due_this_evening]
           "2026-03-05" [].

Lemma overdue_in_repeating_collection :
  let result := [marked_overdue; due_yesterday] in
  NoDup (ids result)
  /\ (forall t, In t result ->
                In t (by_status repeating)
                \/ (In t (due_by_today repeating) /\ overdue_by_date (today repeating) t))
  /\ (forall t, In t (by_status repeating) \/ In t (by_date repeating) ->
                In (notion_id t) (ids result))
  /\ (forall t, In t result ->
                exists before after,
                  by_status repeating ++ by_date repeating = before ++ t :: after
                  /\ ~ In (notion_id t) (ids before)).
Proof.
  apply (overdue_distinct_and_sourced repeating [marked_overdue; due_yesterday]
           (snd (get_overdue_tasks repeating))).
  vm_compute. reflexivity.
Defined.

Lemma due_yesterday_is_past_due :
  past_due "2026-03-05" due_yesterday = true
  <-> date_lt (2026, 3, 4) (2026, 3, 5)
      /\ status due_yesterday <> Some "Done" /\ status due_yesterday <> Some "Archived"
      /\ status due_yesterday <> Some "Overdue".
Proof.
  apply (past_due_by_calendar due_yesterday 2026 3 4 "T17:00:00.000+01:00" 2026 3 5);
    [reflexivity | lia ..].
Defined.

End OverdueExtras.

(* ====================================================================== *)
(** * What the tools answer on failure *)
(* ====================================================================== *)

Module ReplyExtras.
Import Py Provider GCal Notion CalendarTools TaskTools ScheduleTools.

Lemma prefix_append (a b : string) : String.prefix a (a ++ b)%string = true.
Proof.
  induction a as [|c a IH]; simpl; [now destruct b|].
  destruct (Ascii.ascii_dec c c); [exact IH | contradiction].
Qed.

Section Replies.
Context `{ext : Externals}.



End Replies.

(** ** A provider that cannot be reached *)

Import Iso.



End ReplyExtras.

(* ====================================================================== *)
(** * The week of schedule_week_overview *)
(* ====================================================================== *)

Module Week.
Import Py.

(** [dt.date()] as a count of days; day 0 is 1970-01-01. *)
Definition date_of (dt : datetime) : Z := dt / us_per_day.

(** [dt.weekday()]: Monday is 0 and Sunday 6; 1970-01-01 was a Thursday. *)
Definition weekday (dt : datetime) : Z := (date_of dt + 3) mod 7.

(** Lines 66-67: [monday] and [sunday] for an anchor. *)
Definition week_bounds (anchor : datetime) : datetime * datetime :=
  let monday := anchor - days (weekday anchor) in
  let sunday := monday + days 6 in
  (monday, sunday).

(** The dates the overview asks the three sources for. *)
Definition week_range (anchor : datetime) : Z * Z :=
  let '(monday, sunday) := week_bounds anchor in
  (date_of monday, date_of sunday).

Lemma date_of_shift dt k : date_of (dt + days k) = date_of dt + k.
Proof. unfold date_of, days, us_per_day. apply Z.div_add. unfold us_per_second. lia. Qed.

Lemma date_of_monday anchor :
  date_of (fst (week_bounds anchor)) = date_of anchor - weekday anchor.
Proof.
  unfold week_bounds; cbn [fst].
  replace (anchor - days (weekday anchor)) with (anchor + days (- weekday anchor))
    by (unfold days; lia).
  rewrite date_of_shift. lia.
Qed.

Lemma date_of_sunday anchor :
  date_of (snd (week_bounds anchor)) = date_of anchor - weekday anchor + 6.
Proof.
  unfold week_bounds; cbn [snd]. rewrite date_of_shift.
  pose proof (date_of_monday anchor) as Hm. unfold week_bounds in Hm; cbn [fst] in Hm.
  lia.
Qed.

Lemma weekday_range dt : 0 <= weekday dt <= 6.
Proof. unfold weekday. pose proof (Z.mod_pos_bound (date_of dt + 3) 7). lia. Qed.

(** X17: the week runs from a Monday to the Sunday six days later and
    holds the anchor's date; Monday keeps the anchor's time of day. *)
Theorem week_is_monday_to_sunday anchor :
  let '(monday, sunday) := week_bounds anchor in
  weekday monday = 0 /\ weekday sunday = 6
  /\ date_of sunday = date_of monday + 6
  /\ date_of monday <= date_of anchor <= date_of sunday
  /\ monday mod us_per_day = anchor mod us_per_day.
Proof.
  pose proof (date_of_monday anchor) as Hm. pose proof (date_of_sunday anchor) as Hs.
  pose proof (weekday_range anchor) as Hr.
  destruct (week_bounds anchor) as [monday sunday] eqn:Hb. cbn [fst snd] in *.
  assert (Hk : weekday anchor = (date_of anchor + 3) mod 7) by reflexivity.
  pose proof (Z.div_mod (date_of anchor + 3) 7 ltac:(lia)) as Hdm.
  split; [|split; [|split; [|split]]].
  - unfold weekday at 1. rewrite Hm, Hk.
    replace (date_of anchor - (date_of anchor + 3) mod 7 + 3)
      with (0 + (date_of anchor + 3) / 7 * 7) by lia.
    now rewrite Z.mod_add by lia.
  - unfold weekday at 1. rewrite Hs, Hk.
    replace (date_of anchor - (date_of anchor + 3) mod 7 + 6 + 3)
      with (6 + ((date_of anchor + 3) / 7) * 7) by lia.
    now rewrite Z.mod_add by lia.
  - lia.
  - lia.
  - injection Hb as <- _. unfold days.
    replace (anchor - weekday anchor * us_per_day)
      with (anchor + (- weekday anchor) * us_per_day) by lia.
    apply Z.mod_add. unfold us_per_day, us_per_second. lia.
Qed.

(** X18: an anchor whose date lies in the week of another gives the same
    week. *)
Theorem same_week_same_range a b :
  fst (week_range a) <= date_of b <= snd (week_range a) ->
  week_range b = week_range a.
Proof.
  unfold week_range.
  pose proof (date_of_monday a) as Hma. pose proof (date_of_sunday a) as Hsa.
  pose proof (date_of_monday b) as Hmb. pose proof (date_of_sunday b) as Hsb.
  destruct (week_bounds a) as [ma sa], (week_bounds b) as [mb sb]. cbn [fst snd] in *.
  intros Hin. rewrite Hma, Hsa, Hmb, Hsb in *.
  assert (Hk : date_of b - weekday b = date_of a - weekday a).
  { unfold weekday in *.
    pose proof (Z.div_mod (date_of a + 3) 7 ltac:(lia)).
    pose proof (Z.div_mod (date_of b + 3) 7 ltac:(lia)).
    pose proof (Z.mod_pos_bound (date_of a + 3) 7 ltac:(lia)).
    pose proof (Z.mod_pos_bound (date_of b + 3) 7 ltac:(lia)).
    lia. }
  now rewrite Hk.
Qed.

(** Thursday 5 March 2026 and the Sunday that follows share the week from
    2 March to 8 March. *)
Lemma thursday_and_sunday_share_a_week :
  week_range (Iso.instant "2026-03-08T23:30:00")
  = week_range (Iso.instant "2026-03-05T09:00:00").
Proof.
  apply (same_week_same_range (Iso.instant "2026-03-05T09:00:00")
                              (Iso.instant "2026-03-08T23:30:00")).
  vm_compute. split; discriminate.
Defined.

Example week_of_5_march :
  week_range (Iso.instant "2026-03-05T09:00:00")
  = (date_of (Iso.instant "2026-03-02"), date_of (Iso.instant "2026-03-08")).
Proof. vm_compute; reflexivity. Qed.

End Week.

(* ====================================================================== *)
(** * JSON values and Python dicts *)
(* ====================================================================== *)

Module Json.
#[local] Set Warnings "-register-all".

(** What [json] reads and writes; [JNull] is Python's [None]. *)
Inductive value : Type :=
| JNull
| JBool (b : bool)
| JNum (n : Z)
| JStr (s : string)
| JList (items : list value)
| JDict (fields : list (string * value)).

(** A dict with string keys, in insertion order; a key occurs once. *)
Definition dict : Type := list (string * value).

(** [bool(v)] *)
Definition truthy (v : value) : bool :=
  match v with
  | JNull => false
  | JBool b => b
  | JNum n => negb (n =? 0)
  | JStr s => negb (s =? "")%string
  | JList items => match items with [] => false | _ => true end
  | JDict fields => match fields with [] => false | _ => true end
  end.

(** [k in d] and [d[k]]. *)
Fixpoint get (k : string) (d : dict) : option value :=
  match d with
  | [] => None
  | (k', v) :: rest => if String.eqb k' k then Some v else get k rest
  end.

(** [d.get(k)] *)
Definition get_or_none (k : string) (d : dict) : value :=
  match get k d with
  | Some v => v
  | None => JNull
  end.

(** [d[k] = v]: a key that is present keeps its place. *)
Fixpoint set (k : string) (v : value) (d : dict) : dict :=
  match d with
  | [] => [(k, v)]
  | (k', v') :: rest =>
      if String.eqb k' k then (k, v) :: rest else (k', v') :: set k v rest
  end.

(** [a or b] *)
Definition or_ (a b : value) : value := if truthy a then a else b.

(** An optional string as a value. *)
Definition opt (s : option string) : value :=
  match s with
  | Some s => JStr s
  | None => JNull
  end.

Lemma get_set_same k v d : get k (set k v d) = Some v.
Proof.
  induction d as [|[k' v'] rest IH]; simpl.
  - now rewrite String.eqb_refl.
  - destruct (String.eqb k' k) eqn:Hk; simpl; [now rewrite String.eqb_refl|].
    now rewrite Hk.
Qed.

Lemma get_set_other k k' v d : k <> k' -> get k (set k' v d) = get k d.
Proof.
  intros Hne. induction d as [|[k0 v0] rest IH]; simpl.
  - apply String.eqb_neq in Hne. now rewrite String.eqb_sym, Hne.
  - destruct (String.eqb k0 k') eqn:Hk; simpl.
    + apply String.eqb_eq in Hk. subst k0.
      assert (H1 : String.eqb k' k = false) by (apply String.eqb_neq; congruence).
      now rewrite H1.
    + destruct (String.eqb k0 k); [reflexivity | exact IH].
Qed.

(** Writing what is there changes nothing. *)
Lemma set_get_id k v d : get k d = Some v -> set k v d = d.
Proof.
  induction d as [|[k' v'] rest IH]; simpl; [discriminate|].
  destruct (String.eqb k' k) eqn:Hk.
  - apply String.eqb_eq in Hk. now intros [= ->]; subst.
  - intros Hget. now rewrite IH.
Qed.

End Json.

(* ====================================================================== *)
(** * update_event *)
(* ====================================================================== *)

Module GCalUpdate.
Import Json.

(** The fields of the input model after validation. *)
Record UpdateEventInput : Type := {
  event_id : string;
  calendar_id : string;
  title : option string;
  start : option string;
  end_ : option string;
  description : option string;
  location : option string
}.

(** tools/calendar.py, lines 202-210: the fields that are not [None], in the
    order of the literal. *)
Definition kwargs_of (params : UpdateEventInput) : list (string * string) :=
  flat_map (fun kv => match snd kv with
                      | Some v => [(fst kv, v)]
                      | None => []
                      end)
           [("title", title params); ("start", start params); ("end", end_ params);
            ("description", description params); ("location", location params)].

(** [k in kwargs] and [kwargs[k]]. *)
Fixpoint kwarg (k : string) (kwargs : list (string * string)) : option string :=
  match kwargs with
  | [] => None
  | (k', v) :: rest => if String.eqb k' k then Some v else kwarg k rest
  end.

(** clients/gcal.py, lines 147-156: the body sent to [events().update],
    from the event as fetched. *)
Definition update_body (tz : string) (kwargs : list (string * string)) (existing : dict)
  : dict :=
  let existing :=
    match kwarg "title" kwargs with
    | Some v => set "summary" (JStr v) existing
    | None => existing
    end in
  let existing :=
    match kwarg "start" kwargs with
    | Some v => set "start" (JDict [("dateTime", JStr v); ("timeZone", JStr tz)]) existing
    | None => existing
    end in
  let existing :=
    match kwarg "end" kwargs with
    | Some v => set "end" (JDict [("dateTime", JStr v); ("timeZone", JStr tz)]) existing
    | None => existing
    end in
  let existing :=
    match kwarg "description" kwargs with
    | Some v => set "description" (JStr v) existing
    | None => existing
    end in
  let existing :=
    match kwarg "location" kwargs with
    | Some v => set "location" (JStr v) existing
    | None => existing
    end in
  existing.

(** One of the five conditional assignments. *)
Definition assign (o : option value) (k : string) (d : dict) : dict :=
  match o with
  | Some v => set k v d
  | None => d
  end.

Definition time_value (tz : string) (o : option string) : option value :=
  option_map (fun v => JDict [("dateTime", JStr v); ("timeZone", JStr tz)]) o.

Lemma update_body_assign tz kwargs existing :
  update_body tz kwargs existing =
  assign (option_map JStr (kwarg "location" kwargs)) "location"
    (assign (option_map JStr (kwarg "description" kwargs)) "description"
       (assign (time_value tz (kwarg "end" kwargs)) "end"
          (assign (time_value tz (kwarg "start" kwargs)) "start"
             (assign (option_map JStr (kwarg "title" kwargs)) "summary" existing)))).
Proof.
  unfold update_body, assign, time_value.
  destruct (kwarg "title" kwargs), (kwarg "start" kwargs), (kwarg "end" kwargs),
    (kwarg "description" kwargs), (kwarg "location" kwargs); reflexivity.
Qed.

Lemma get_assign_same o k d :
  get k (assign o k d) = match o with Some v => Some v | None => get k d end.
Proof. destruct o; simpl; [apply get_set_same | reflexivity]. Qed.

Lemma get_assign_other o k k' d : k <> k' -> get k (assign o k' d) = get k d.
Proof. intros Hne. destruct o; simpl; [now apply get_set_other | reflexivity]. Qed.

Lemma assign_fixed o k d :
  (forall v, o = Some v -> get k d = Some v) -> assign o k d = d.
Proof. destruct o as [v|]; simpl; [|reflexivity]. intros H. now apply set_get_id, H. Qed.

Lemma kwargs_of_fields params :
  kwarg "title" (kwargs_of params) = title params
  /\ kwarg "start" (kwargs_of params) = start params
  /\ kwarg "end" (kwargs_of params) = end_ params
  /\ kwarg "description" (kwargs_of params) = description params
  /\ kwarg "location" (kwargs_of params) = location params.
Proof.
  unfold kwargs_of.
  destruct (title params), (start params), (end_ params), (description params),
    (location params); repeat split; reflexivity.
Qed.

(** X19: the body differs from the fetched event only in the fields the
    caller gave: a given title, description or location is written as it
    is, the empty string included; a given start or end replaces the whole
    time object by [dateTime] and the configured [timeZone]; a field that
    was not given, and every other key of the event, reads as before. *)
Theorem only_given_fields_change tz params existing :
  let body := update_body tz (kwargs_of params) existing in
  get "summary" body
  = match title params with Some v => Some (JStr v) | None => get "summary" existing end
  /\ get "start" body
     = match start params with
       | Some v => Some (JDict [("dateTime", JStr v); ("timeZone", JStr tz)])
       | None => get "start" existing
       end
  /\ get "end" body
     = match end_ params with
       | Some v => Some (JDict [("dateTime", JStr v); ("timeZone", JStr tz)])
       | None => get "end" existing
       end
  /\ get "description" body
     = match description params with
       | Some v => Some (JStr v)
       | None => get "description" existing
       end
  /\ get "location" body
     = match location params with
       | Some v => Some (JStr v)
       | None => get "location" existing
       end
  /\ (forall k, ~ In k ["summary"; "start"; "end"; "description"; "location"] ->
                get k body = get k existing).
Proof.
  cbv zeta. rewrite update_body_assign.
  destruct (kwargs_of_fields params) as (-> & -> & -> & -> & ->).
  repeat split.
  - rewrite !get_assign_other by discriminate. rewrite get_assign_same.
    now destruct (title params).
  - rewrite !get_assign_other by discriminate. rewrite get_assign_same.
    rewrite get_assign_other by discriminate. now destruct (start params).
  - rewrite !get_assign_other by discriminate. rewrite get_assign_same.
    rewrite !get_assign_other by discriminate. now destruct (end_ params).
  - rewrite !get_assign_other by discriminate. rewrite get_assign_same.
    rewrite !get_assign_other by discriminate. now destruct (description params).
  - rewrite get_assign_same.
    rewrite !get_assign_other by discriminate. now destruct (location params).
  - intros k Hk. simpl in Hk.
    rewrite !get_assign_other; [reflexivity | intros ->; tauto ..].
Qed.

(** X20: sending the same changes again gives the same body: applied to
    its own result, [update_body] changes nothing. *)
Theorem update_body_idempotent tz kwargs existing :
  update_body tz kwargs (update_body tz kwargs existing)
  = update_body tz kwargs existing.
Proof.
  rewrite (update_body_assign tz kwargs (update_body tz kwargs existing)).
  set (body := update_body tz kwargs existing).
  assert (Hbody : body = update_body tz kwargs existing) by reflexivity.
  rewrite update_body_assign in Hbody.
  rewrite (assign_fixed _ "summary" body).
  rewrite (assign_fixed _ "start" body).
  rewrite (assign_fixed _ "end" body).
  rewrite (assign_fixed _ "description" body).
  rewrite (assign_fixed _ "location" body).
  reflexivity.
  all: intros v Hv; rewrite Hbody;
    rewrite ?get_assign_other by discriminate; rewrite get_assign_same, Hv; reflexivity.
Qed.

(** ** An all-day event moved to an hour *)

Definition offsite : dict :=
  [("id", JStr "evt1"); ("summary", JStr "Offsite");
   ("start", JDict [("date", JStr "2026-03-05")]);
   ("end", JDict [("date", JStr "2026-03-06")]);
   ("colorId", JStr "5")].

Definition to_the_morning : UpdateEventInput :=
  {| event_id := "evt1"; calendar_id := "primary"; title := None;
     start := Some "2026-03-05T09:00:00"; end_ := Some "2026-03-05T12:00:00";
     description := Some ""; location := None |}.

Lemma offsite_keeps_its_colour :
  get "colorId" (update_body "Europe/Paris" (kwargs_of to_the_morning) offsite)
  = Some (JStr "5").
Proof.
  destruct (only_given_fields_change "Europe/Paris" to_the_morning offsite)
    as (_ & _ & _ & _ & _ & Hrest).
  rewrite (Hrest "colorId"); [reflexivity|].
  simpl. intros [H|[H|[H|[H|[H|[]]]]]]; discriminate H.
Defined.

Example offsite_moved :
  update_body "Europe/Paris" (kwargs_of to_the_morning) offsite
  = [("id", JStr "evt1"); ("summary", JStr "Offsite");
     ("start", JDict [("dateTime", JStr "2026-03-05T09:00:00");
                      ("timeZone", JStr "Europe/Paris")]);
     ("end", JDict [("dateTime", JStr "2026-03-05T12:00:00");
                    ("timeZone", JStr "Europe/Paris")]);
     ("colorId", JStr "5"); ("description", JStr "")].
Proof. reflexivity. Qed.

End GCalUpdate.

(* ====================================================================== *)
(** * Notion properties, pages and filters *)
(* ====================================================================== *)

Module NotionProps.
Import Json.

(** ** Builders *)






(** ** Extractors

    [None] stands for an exception: [AttributeError] where [.get] is called
    on a value that is no dict, [TypeError] where [join] meets a value that
    is no string or the items cannot be iterated. *)

(** [item.get("plain_text", "")], as [join] takes it. *)
Definition plain_text (item : value) : option string :=
  match item with
  | JDict fields =>
      match get "plain_text" fields with
      | None => Some ""
      | Some (JStr s) => Some s
      | Some _ => None
      end
  | _ => None
  end.

(** The empty string joined with the [plain_text] of the items. *)
Fixpoint join (items : list value) : option string :=
  match items with
  | [] => Some ""
  | item :: rest =>
      match plain_text item, join rest with
      | Some s, Some r => Some (s ++ r)%string
      | _, _ => None
      end
  end.

Definition _extract_text (prop : value) : option string :=
  if negb (truthy prop) then Some ""
  else match prop with
       | JDict d =>
           match or_ (or_ (get_or_none "rich_text" d) (get_or_none "title" d)) (JList []) with
           | JList items => join items
           | _ => None
           end
       | _ => None
       end.

(** The shape the other three extractors share: [prop[key].get(field)]
    unless [prop] or [prop.get(key)] is falsy. *)
Definition extract_named (key field : string) (prop : value) : option value :=
  if negb (truthy prop) then Some JNull
  else match prop with
       | JDict d =>
           if negb (truthy (get_or_none key d)) then Some JNull
           else match get key d with
                | Some (JDict inner) => Some (get_or_none field inner)
                | _ => None
                end
       | _ => None
       end.

Definition _extract_date (prop : value) : option value := extract_named "date" "start" prop.

Definition _extract_select (prop : value) : option value :=
  extract_named "select" "name" prop.


(** [page["properties"]], [page["id"]] and [page["url"]] raise [KeyError]
    when the key is missing. *)
Definition _simplify_task (page : value) : option dict :=
  match page with
  | JDict p =>
      match get "properties" p with
      | Some (JDict props) =>
          match get "id" p, get "url" p,
                _extract_text (get_or_none "Task name" props),
                _extract_select (get_or_none "Task Status" props),
                _extract_date (get_or_none "Due Date" props) with
          | Some id, Some url, Some name, Some status, Some due_date =>
              Some [("notion_id", id); ("url", url); ("name", JStr name);
                    ("status", status); ("due_date", due_date)]
          | _, _, _, _, _ => None
          end
      | _ => None
      end
  | _ => None
  end.

(** ** Queries *)

(** clients/notion.py, lines 298-309. *)
Definition get_tasks_filters (status due_before due_after : option string) : list value :=
  let filters := [] in
  let filters :=
    if Py.truthy status
    then filters ++ [JDict [("property", JStr "Task Status");
                            ("select", JDict [("equals", opt status)])]]
    else filters in
  let filters :=
    if Py.truthy due_before
    then filters ++ [JDict [("property", JStr "Due Date");
                            ("date", JDict [("on_or_before", opt due_before)])]]
    else filters in
  let filters :=
    if Py.truthy due_after
    then filters ++ [JDict [("property", JStr "Due Date");
                            ("date", JDict [("on_or_after", opt due_after)])]]
    else filters in
  filters.

(** clients/notion.py, lines 118-135. *)
Definition get_appointments_filters (start_date end_date appointment_type status
                                     : option string) : list value :=
  let filters := [] in
  let filters :=
    if Py.truthy start_date
    then filters ++ [JDict [("property", JStr "Start");
                            ("date", JDict [("on_or_after", opt start_date)])]]
    else filters in
  let filters :=
    if Py.truthy end_date
    then filters ++ [JDict [("property", JStr "Start");
                            ("date", JDict [("on_or_before", opt end_date)])]]
    else filters in
  let filters :=
    if Py.truthy appointment_type
    then filters ++ [JDict [("property", JStr "Type");
                            ("select", JDict [("equals", opt appointment_type)])]]
    else filters in
  let filters :=
    if Py.truthy status
    then filters ++ [JDict [("property", JStr "Status");
                            ("status", JDict [("equals", opt status)])]]
    else filters in
  filters.

(** The [query_args] of both functions: the sort, and the filter when there
    is one. *)
Definition query_args (sort_property : string) (filters : list value) : dict :=
  let query_args :=
    [("sorts", JList [JDict [("property", JStr sort_property);
                             ("direction", JStr "ascending")]])] in
  match filters with
  | [] => query_args
  | [f] => set "filter" f query_args
  | _ => set "filter" (JDict [("and", JList filters)]) query_args
  end.

Definition get_tasks_query (status due_before due_after : option string) : dict :=
  query_args "Due Date" (get_tasks_filters status due_before due_after).

Definition get_appointments_query (start_date end_date appointment_type status
                                   : option string) : dict :=
  query_args "Start" (get_appointments_filters start_date end_date appointment_type status).

End NotionProps.

Module NotionPropFacts.
Import Json NotionProps.

(** ** What is built and what is read *)


(** An item of a title or rich-text list as the API returns it. *)
Definition reads (item : value) (run : string) : Prop :=
  exists fields, item = JDict fields /\ get "plain_text" fields = Some (JStr run).

Lemma join_reads items runs :
  Forall2 reads items runs -> join items = Some (fold_right append "" runs).
Proof.
  induction 1 as [|item run items runs (fields & -> & Hrun) _ IH]; [reflexivity|].
  simpl. now rewrite Hrun, IH.
Qed.

Lemma get_truthy k d v : get k d = Some v -> truthy (JDict d) = true.
Proof. destruct d; [discriminate | reflexivity]. Qed.

(** X22: on a property whose [rich_text] list, or whose [title] list when
    there is no [rich_text], holds items with a [plain_text] string each,
    [_extract_text] returns these strings joined in order. *)
Theorem extract_text_joins_plain_text d items runs :
  (get "rich_text" d = Some (JList items) /\ items <> [])
  \/ (truthy (get_or_none "rich_text" d) = false /\ get "title" d = Some (JList items)) ->
  Forall2 reads items runs ->
  _extract_text (JDict d) = Some (fold_right append "" runs).
Proof.
  intros Hd Hruns. unfold _extract_text.
  destruct Hd as [[Hrich Hsome]|[Hrich Htitle]].
  - rewrite (get_truthy _ _ _ Hrich). cbn [negb].
    unfold get_or_none at 1. rewrite Hrich. unfold or_ at 2.
    destruct items as [|item items]; [contradiction|]. cbn [truthy].
    unfold or_. cbn [truthy]. now apply join_reads.
  - rewrite (get_truthy _ _ _ Htitle). cbn [negb].
    unfold or_ at 2. rewrite Hrich. unfold get_or_none. rewrite Htitle.
    destruct items as [|item items].
    + inversion Hruns; subst. reflexivity.
    + unfold or_. cbn [truthy]. now apply join_reads.
Qed.

(** ** Pages *)

(** A run of text as the API returns it. *)
Definition text_run (run : string) : value :=
  JDict [("type", JStr "text"); ("text", JDict [("content", JStr run)]);
         ("plain_text", JStr run)].

(** A task page as the API returns it: the name in text runs, the status as
    a select option or null, the due date as a date object or null. *)
Definition task_page (id url : string) (runs : list string) (status due : option string)
  : value :=
  JDict
    [("object", JStr "page"); ("id", JStr id); ("url", JStr url);
     ("properties",
      JDict
        [("Task name",
          JDict [("id", JStr "title"); ("type", JStr "title");
                 ("title", JList (map text_run runs))]);
         ("Task Status",
          JDict [("type", JStr "select");
                 ("select",
                  match status with
                  | Some s => JDict [("name", JStr s); ("color", JStr "default")]
                  | None => JNull
                  end)]);
         ("Due Date",
          JDict [("type", JStr "date");
                 ("date",
                  match due with
                  | Some d => JDict [("start", JStr d); ("end", JNull);
                                     ("time_zone", JNull)]
                  | None => JNull
                  end)])])].

Lemma runs_read runs : Forall2 reads (map text_run runs) runs.
Proof.
  induction runs as [|run runs IH]; constructor; [|exact IH].
  eexists. split; reflexivity.
Qed.

Lemma title_reads runs :
  _extract_text (JDict [("id", JStr "title"); ("type", JStr "title");
                        ("title", JList (map text_run runs))])
  = Some (fold_right append "" runs).
Proof.
  unfold _extract_text. cbn [truthy negb get String.eqb Ascii.eqb Bool.eqb get_or_none or_].
  pose proof (join_reads _ _ (runs_read runs)) as Hjoin.
  destruct runs as [|run runs]; [reflexivity | exact Hjoin].
Qed.

(** X23: [_simplify_task] reads a task page back into its five fields: the
    id and the URL, the name as the text runs joined, and the status and
    the due date, each [None] when the page has none. *)
Theorem simplify_task_reads_page id url runs status due :
  _simplify_task (task_page id url runs status due)
  = Some [("notion_id", JStr id); ("url", JStr url);
          ("name", JStr (fold_right append "" runs));
          ("status", opt status); ("due_date", opt due)].
Proof.
  unfold _simplify_task, task_page. cbn [get String.eqb Ascii.eqb Bool.eqb get_or_none].
  rewrite title_reads. destruct status, due; reflexivity.
Qed.

(** ** Filters *)

(** The conditions a query asks for: none without a filter, the members of
    an [and], or the one filter given. *)
Definition clauses_of (query_args : dict) : list value :=
  match get "filter" query_args with
  | None => []
  | Some (JDict fields) =>
      match get "and" fields with
      | Some (JList filters) => filters
      | _ => [JDict fields]
      end
  | Some f => [f]
  end.

Definition clause (property kind op : string) (v : option string) : list value :=
  match v with
  | Some s => [JDict [("property", JStr property); (kind, JDict [(op, JStr s)])]]
  | None => []
  end.

(** The filter that stands for a list of conditions. *)
Definition filter_for (conditions : list value) : option value :=
  match conditions with
  | [] => None
  | [c] => Some c
  | _ => Some (JDict [("and", JList conditions)])
  end.

(** X24: the query of [get_tasks] asks for one condition per argument that
    is neither [None] nor empty, in the order status, due-before,
    due-after; these are the filters the request [TasksQuery] records.  The
    query of [get_appointments] does the same over its four arguments.
    Both keep their sort; one condition is the filter itself, several stand
    under [and], and there is no filter when no argument counts. *)
Theorem queries_ask_for_given_arguments :
  (forall status due_before due_after,
      let q := get_tasks_query status due_before due_after in
      clauses_of q
      = clause "Task Status" "select" "equals" (Notion.filter_arg status)
        ++ clause "Due Date" "date" "on_or_before" (Notion.filter_arg due_before)
        ++ clause "Due Date" "date" "on_or_after" (Notion.filter_arg due_after)
      /\ get "sorts" q
         = Some (JList [JDict [("property", JStr "Due Date");
                               ("direction", JStr "ascending")]])
      /\ get "filter" q = filter_for (clauses_of q))
  /\ (forall start_date end_date appointment_type status,
         let q := get_appointments_query start_date end_date appointment_type status in
         clauses_of q
         = clause "Start" "date" "on_or_after" (Notion.filter_arg start_date)
           ++ clause "Start" "date" "on_or_before" (Notion.filter_arg end_date)
           ++ clause "Type" "select" "equals" (Notion.filter_arg appointment_type)
           ++ clause "Status" "status" "equals" (Notion.filter_arg status)
         /\ get "sorts" q
            = Some (JList [JDict [("property", JStr "Start");
                                  ("direction", JStr "ascending")]])
         /\ get "filter" q = filter_for (clauses_of q)).
Proof.
  split.
  - intros [[|c1 s1]|] [[|c2 s2]|] [[|c3 s3]|]; cbv zeta; repeat split; reflexivity.
  - intros [[|c1 s1]|] [[|c2 s2]|] [[|c3 s3]|] [[|c4 s4]|]; cbv zeta;
      repeat split; reflexivity.
Qed.

(** ** Worked values *)

Definition notes_property : dict :=
  [("id", JStr "abc"); ("type", JStr "rich_text");
   ("rich_text",
    JList [JDict [("type", JStr "text"); ("plain_text", JStr "Bring ")];
           JDict [("type", JStr "text"); ("plain_text", JStr "ID card")]])].

Lemma notes_are_joined : _extract_text (JDict notes_property) = Some "Bring ID card".
Proof.
  apply (extract_text_joins_plain_text
           notes_property
           [JDict [("type", JStr "text"); ("plain_text", JStr "Bring ")];
            JDict [("type", JStr "text"); ("plain_text", JStr "ID card")]]
           ["Bring "; "ID card"]).
  - left. split; [reflexivity | discriminate].
  - repeat constructor; eexists; split; reflexivity.
Defined.

End NotionPropFacts.
